(** * snark-ur5-control: the robotic arm daemon

    A shallow embedding of
    [actuators/universal_robots/robotic_arm/ur5/applications/snark-ur5-control.cpp]:
    the status reader ([read_status]), the command dispatcher ([handle],
    [process_command]), the home position monitor ([home_position_check]),
    the scope guard ([stop_on_exit]) and the control loop of [main].

    The process state (the globals [arm_status], [Arm_Controller_U],
    [Arm_Controller_Y], the function-local statics, the streams and the files
    the daemon touches) is one record, [World].  Every function of the source
    is a computation [World -> res A * World]: it returns a value, raises a
    C++ exception, or runs into undefined behaviour (an index past the end of
    a vector, a null pointer dereferenced). *)

From Stdlib Require Import ZArith QArith Qround Qabs Bool Ascii String Lia.
From stdpp Require Import base list strings pretty.

Local Open Scope string_scope.
Local Open Scope Z_scope.

(** ** Characters and strings *)

Definition nl : string := String (ascii_of_nat 10) EmptyString.
Definition dq : string := String (ascii_of_nat 34) EmptyString.

(** [std::toupper] in the classic locale: the letters a..z. *)
Definition toupper (c : ascii) : ascii :=
  let n := nat_of_ascii c in
  if ((97 <=? n) && (n <=? 122))%nat then ascii_of_nat (n - 32) else c.

(** [boost::iequals]: same length, and the characters equal after [toupper]. *)
Fixpoint iequals (a b : string) : bool :=
  match a, b with
  | EmptyString, EmptyString => true
  | String x a', String y b' => Ascii.eqb (toupper x) (toupper y) && iequals a' b'
  | _, _ => false
  end.

(** [comma::join( v, size, delimiter )]: the first [size] elements, with the
    delimiter between them.  [comma::join( v, delimiter )] is
    [join v (length v) delimiter]. *)
Fixpoint join_from (v : list string) (size : nat) (delimiter : string) : string :=
  match size, v with
  | S n, x :: rest => delimiter +:+ x +:+ join_from rest n delimiter
  | _, _ => EmptyString
  end.

Definition join (v : list string) (size : nat) (delimiter : string) : string :=
  match size, v with
  | S n, x :: rest => x +:+ join_from rest n delimiter
  | _, _ => EmptyString
  end.

(** ** Streams *)

(** What is done to a [std::ostream]: [os << s], [os << std::endl],
    [os.flush()]. *)
Inductive event :=
| os_put (s : string)
| os_endl
| os_flush.

Global Instance event_eq_dec : EqDecision event.
Proof. solve_decision. Defined.

(** What is done to the [comma::io::publisher]. *)
Inductive publication :=
| pub_write (bytes : string)
| pub_close.

(** ** Outcomes *)

Inductive exn :=
| comma_exception (what : string)
| std_exception (what : string)
| unknown_exception.

Inductive ub :=
| out_of_bounds
| null_dereference.

Inductive res (A : Type) :=
| Val (a : A)
| Raise (e : exn)
| Undefined (u : ub).

Arguments Val {A} a.
Arguments Raise {A} e.
Arguments Undefined {A} u.

Definition M (W A : Type) : Type := W -> res A * W.

Definition ret {W A} (a : A) : M W A := fun w => (Val a, w).
Definition throw {W A} (e : exn) : M W A := fun w => (Raise e, w).
Definition undefined {W A} (u : ub) : M W A := fun w => (Undefined u, w).

Definition bind {W A B} (m : M W A) (k : A -> M W B) : M W B :=
  fun w =>
    match m w with
    | (Val a, w') => k a w'
    | (Raise e, w') => (Raise e, w')
    | (Undefined u, w') => (Undefined u, w')
    end.

Notation "x <- m ;; k" := (bind m (fun x => k))
  (at level 100, m at next level, right associativity).
Notation "m ;;; k" := (bind m (fun _ => k))
  (at level 100, right associativity).

(** [try { m } catch( ... ) { throw e; }] *)
Definition catch_all {W A} (m : M W A) (e : exn) : M W A :=
  fun w =>
    match m w with
    | (Raise _, w') => (Raise e, w')
    | r => r
    end.

(** ** The process state *)

(** The stream an [std::ostream&] parameter refers to. *)
Inductive ostream :=
| std_cout
| robot_arm_stream.

(** The command classes of [commands.h] that [process_command] instantiates
    [handle] with. *)
Inductive command_class :=
| move_cam
| set_position
| set_home
| power
| brakes
| auto_init_force
| auto_init
| joint_move.

(** [arm::errors], as far as this file names them. *)
Inductive error_code :=
| format_error
| unknown_command.

(** Types declared in headers outside this file: the angle quantity of
    [units.h], the parsed command objects of [commands.h], the input and
    output blocks and the work area of the generated controller
    ([simulink/Arm_Controller.h]), and the private state of
    [commands_handler] and [auto_initialization]. *)
Class ArmTypes := {
  plane_angle_t : Type;
  command : Type;
  ExtU_Arm_Controller_T : Type;
  ExtY_Arm_Controller_T : Type;
  DW_Arm_Controller_T : Type;
  handlers_t : Type;
}.

(** Modelled from the spec: [arm::status_t] is declared in a header that is
    not part of these sources.  A frame starts with a length field, followed
    by the robot mode ([is_running] tells whether it is the running mode) and
    the joint angles, an array indexed from 0. *)
Record status_t `{ArmTypes} := {
  status_length : Z;
  is_running : bool;
  joint_angles : list plane_angle_t;
}.

(** What one [select.wait] on the feedback descriptor meets: how many
    milliseconds pass before the descriptor is readable ([None]: it never
    is), and the frames the stream then holds. *)
Record arrival `{ArmTypes} := {
  ready_after : option Z;
  frames : list status_t;
}.

(** The state of the process: the globals [arm_status], [Arm_Controller_U],
    [Arm_Controller_Y] and the controller's work area; the state behind
    [commands_handler]; [config.continuum.home_position]; what has been
    written to [*robot_arm], to [std::cout] and to the publisher; what the
    feedback stream will deliver; the files that exist; and the two statics
    of [home_position_check], [home_position] (empty until the first call)
    and [path] (not yet initialised: [None]).

    Modelled from the spec: [arm::inputs] ([inputs.h]) is not part of these
    sources.  [inputs] is its queue of tokenised command lines, and [cin]
    lists what each call of [inputs.read()] does: it throws ([None]) or
    queues the lines it has read. *)
Record World `{ArmTypes} := {
  arm_status : status_t;
  Arm_Controller_U : ExtU_Arm_Controller_T;
  Arm_Controller_Y : ExtY_Arm_Controller_T;
  Arm_Controller_DW : DW_Arm_Controller_T;
  handlers : handlers_t;
  config_home_position : nat -> Q;
  robot_arm : list event;
  cout : list event;
  publisher : list publication;
  status_stream : list arrival;
  cin : list (option (list (list string)));
  inputs : list (list string);
  files : list string;
  home_position : list plane_angle_t;
  path : option string;
}.

Definition set_arm_status `{ArmTypes} (s : status_t) (w : World) : World :=
  {| arm_status := s; Arm_Controller_U := Arm_Controller_U w;
     Arm_Controller_Y := Arm_Controller_Y w; Arm_Controller_DW := Arm_Controller_DW w;
     handlers := handlers w; config_home_position := config_home_position w;
     robot_arm := robot_arm w; cout := cout w;
     publisher := publisher w; status_stream := status_stream w; cin := cin w;
     inputs := inputs w; files := files w; home_position := home_position w;
     path := path w |}.

Definition set_U `{ArmTypes} (u : ExtU_Arm_Controller_T) (w : World) : World :=
  {| arm_status := arm_status w; Arm_Controller_U := u;
     Arm_Controller_Y := Arm_Controller_Y w; Arm_Controller_DW := Arm_Controller_DW w;
     handlers := handlers w; config_home_position := config_home_position w;
     robot_arm := robot_arm w; cout := cout w;
     publisher := publisher w; status_stream := status_stream w; cin := cin w;
     inputs := inputs w; files := files w; home_position := home_position w;
     path := path w |}.

Definition set_Y_DW `{ArmTypes} (yd : ExtY_Arm_Controller_T * DW_Arm_Controller_T)
    (w : World) : World :=
  {| arm_status := arm_status w; Arm_Controller_U := Arm_Controller_U w;
     Arm_Controller_Y := fst yd; Arm_Controller_DW := snd yd;
     handlers := handlers w; config_home_position := config_home_position w;
     robot_arm := robot_arm w; cout := cout w;
     publisher := publisher w; status_stream := status_stream w; cin := cin w;
     inputs := inputs w; files := files w; home_position := home_position w;
     path := path w |}.

Definition set_robot_arm `{ArmTypes} (l : list event) (w : World) : World :=
  {| arm_status := arm_status w; Arm_Controller_U := Arm_Controller_U w;
     Arm_Controller_Y := Arm_Controller_Y w; Arm_Controller_DW := Arm_Controller_DW w;
     handlers := handlers w; config_home_position := config_home_position w;
     robot_arm := l; cout := cout w;
     publisher := publisher w; status_stream := status_stream w; cin := cin w;
     inputs := inputs w; files := files w; home_position := home_position w;
     path := path w |}.

Definition set_cout `{ArmTypes} (l : list event) (w : World) : World :=
  {| arm_status := arm_status w; Arm_Controller_U := Arm_Controller_U w;
     Arm_Controller_Y := Arm_Controller_Y w; Arm_Controller_DW := Arm_Controller_DW w;
     handlers := handlers w; config_home_position := config_home_position w;
     robot_arm := robot_arm w; cout := l;
     publisher := publisher w; status_stream := status_stream w; cin := cin w;
     inputs := inputs w; files := files w; home_position := home_position w;
     path := path w |}.

Definition set_publisher `{ArmTypes} (l : list publication) (w : World) : World :=
  {| arm_status := arm_status w; Arm_Controller_U := Arm_Controller_U w;
     Arm_Controller_Y := Arm_Controller_Y w; Arm_Controller_DW := Arm_Controller_DW w;
     handlers := handlers w; config_home_position := config_home_position w;
     robot_arm := robot_arm w; cout := cout w;
     publisher := l; status_stream := status_stream w; cin := cin w;
     inputs := inputs w; files := files w; home_position := home_position w;
     path := path w |}.

Definition set_status_stream `{ArmTypes} (l : list arrival) (w : World) : World :=
  {| arm_status := arm_status w; Arm_Controller_U := Arm_Controller_U w;
     Arm_Controller_Y := Arm_Controller_Y w; Arm_Controller_DW := Arm_Controller_DW w;
     handlers := handlers w; config_home_position := config_home_position w;
     robot_arm := robot_arm w; cout := cout w;
     publisher := publisher w; status_stream := l; cin := cin w;
     inputs := inputs w; files := files w; home_position := home_position w;
     path := path w |}.

Definition set_cin `{ArmTypes} (c : list (option (list (list string)))) (w : World)
  : World :=
  {| arm_status := arm_status w; Arm_Controller_U := Arm_Controller_U w;
     Arm_Controller_Y := Arm_Controller_Y w; Arm_Controller_DW := Arm_Controller_DW w;
     handlers := handlers w; config_home_position := config_home_position w;
     robot_arm := robot_arm w; cout := cout w;
     publisher := publisher w; status_stream := status_stream w; cin := c;
     inputs := inputs w; files := files w; home_position := home_position w;
     path := path w |}.

Definition set_inputs `{ArmTypes} (q : list (list string)) (w : World) : World :=
  {| arm_status := arm_status w; Arm_Controller_U := Arm_Controller_U w;
     Arm_Controller_Y := Arm_Controller_Y w; Arm_Controller_DW := Arm_Controller_DW w;
     handlers := handlers w; config_home_position := config_home_position w;
     robot_arm := robot_arm w; cout := cout w;
     publisher := publisher w; status_stream := status_stream w; cin := cin w;
     inputs := q; files := files w; home_position := home_position w;
     path := path w |}.

Definition set_files `{ArmTypes} (f : list string) (w : World) : World :=
  {| arm_status := arm_status w; Arm_Controller_U := Arm_Controller_U w;
     Arm_Controller_Y := Arm_Controller_Y w; Arm_Controller_DW := Arm_Controller_DW w;
     handlers := handlers w; config_home_position := config_home_position w;
     robot_arm := robot_arm w; cout := cout w;
     publisher := publisher w; status_stream := status_stream w; cin := cin w;
     inputs := inputs w; files := f; home_position := home_position w;
     path := path w |}.

Definition set_statics `{ArmTypes} (h : list plane_angle_t) (p : option string)
    (w : World) : World :=
  {| arm_status := arm_status w; Arm_Controller_U := Arm_Controller_U w;
     Arm_Controller_Y := Arm_Controller_Y w; Arm_Controller_DW := Arm_Controller_DW w;
     handlers := handlers w; config_home_position := config_home_position w;
     robot_arm := robot_arm w; cout := cout w;
     publisher := publisher w; status_stream := status_stream w; cin := cin w;
     inputs := inputs w; files := files w; home_position := h;
     path := p |}.

(** [os << ...] on the stream [os] refers to. *)
Definition put `{ArmTypes} (os : ostream) (l : list event) : M World unit :=
  fun w =>
    match os with
    | std_cout => (Val tt, set_cout (cout w ++ l) w)
    | robot_arm_stream => (Val tt, set_robot_arm (robot_arm w ++ l) w)
    end.

(** What [C::ascii().get( line )] does: it returns the command, or throws
    [boost::bad_lexical_cast], [comma::exception] or something else. *)
Inductive parsed `{ArmTypes} :=
| got (c : command)
| bad_lexical_cast
| comma_error
| other_fault.

(** What the headers outside this file provide.

    [commands.h], [commands_handler.h]: the parser of each command class, its
    default-constructed object ([C c;]), [c.names()], [c.serialise()],
    [arm::auto_init_force::fields], [impl_::str] of an error code,
    [ref.dispatch_to( h_ref )] followed by
    [commands_handler->ret.get_message()], and [auto_init.home_filepath()].

    [units.h], [comma/math/compare.h]: [static_cast< arm::plane_angle_t >( x *
    arm::degree )] and [comma::math::equal( a, b, epsilon )].

    The generated controller: [Arm_Controller_step], the block [memset]
    leaves, the assignment to [motion_primitive], [input_primitive::no_action],
    [command_flag]; and the two encodings of the output block, [ascii< ExtY
    >().put] and [binary< current_positions_t >.put].

    [arm::fixed_status::size]. *)
Class ArmHeaders `{ArmTypes} := {
  ascii_get : command_class -> list string -> parsed;
  construct : command_class -> command;
  names : command -> string;
  serialise_command : command -> string;
  auto_init_force_fields : nat;
  str : error_code -> string;
  dispatch_to : command -> M World string;
  home_filepath : handlers_t -> string;
  degree : Q -> plane_angle_t;
  equal : plane_angle_t -> plane_angle_t -> plane_angle_t -> bool;
  Arm_Controller_step :
    ExtU_Arm_Controller_T -> ExtY_Arm_Controller_T * DW_Arm_Controller_T ->
    ExtY_Arm_Controller_T * DW_Arm_Controller_T;
  zeroed : ExtU_Arm_Controller_T;
  set_motion_primitive : Z -> ExtU_Arm_Controller_T -> ExtU_Arm_Controller_T;
  no_action : Z;
  command_flag : ExtY_Arm_Controller_T -> Z;
  ascii_put : ExtY_Arm_Controller_T -> string;
  binary_put : ExtY_Arm_Controller_T -> string;
  fixed_status_size : Z;
}.

(** Modelled from the spec: [arm::joints_num] is declared in a header that is
    not part of these sources; the arm has six joints (this file pushes six
    home angles and prints [6u] joint angles). *)
Definition joints_num : nat := 6.


Definition gets `{ArmTypes} {A} (f : World -> A) : M World A :=
  fun w => (Val (f w), w).

Definition modify `{ArmTypes} (f : World -> World) : M World unit :=
  fun w => (Val tt, f w).

(** ** Command dispatch *)

(** [output( msg, os )]; the source declares [os] with the default
    [std::cout], and every call in it is [output( msg )]. *)
Definition output `{ArmTypes} (msg : string) (os : ostream) : M World unit :=
  put os [os_put msg; os_endl].

(** [handle< C >( line, os )]; nothing in it uses [os]. *)
Definition handle `{ArmHeaders} (C : command_class) (line : list string)
    (os : ostream) : M World string :=
  let c := construct C in
  match ascii_get C line with
  | bad_lexical_cast =>
      ret ("<" +:+ join line (List.length line) "," +:+ "," +:+ str format_error
           +:+ "," +:+ dq +:+ "command format error, wrong field type/s, fields: "
           +:+ names c +:+ " - types: " +:+ serialise_command c +:+ dq +:+ ";")
  | comma_error =>
      ret ("<" +:+ join line (List.length line) "," +:+ "," +:+ str format_error
           +:+ "," +:+ dq
           +:+ "command format error, wrong field/s or field type/s, fields: "
           +:+ names c +:+ " - types: " +:+ serialise_command c +:+ dq +:+ ";")
  | other_fault =>
      throw (comma_exception
               ("unknown error is parsing: " +:+ join line (List.length line) ","))
  | got c' =>
      msg <- dispatch_to c' ;;
      ret ("<" +:+ serialise_command c' +:+ "," +:+ msg +:+ ";")
  end.

Definition process_command `{ArmHeaders} (v : list string) (os : ostream)
  : M World unit :=
  match v !! 2%nat with
  | None => undefined out_of_bounds
  | Some v2 =>
      if iequals v2 "move_cam" then
        (r <- handle move_cam v os ;; output r std_cout)
      else if iequals v2 "set_pos" then
        (r <- handle set_position v os ;; output r std_cout)
      else if iequals v2 "set_home" then
        (r <- handle set_home v os ;; output r std_cout)
      else if iequals v2 "power" then
        (r <- handle power v os ;; output r std_cout)
      else if iequals v2 "brakes" || iequals v2 "stop" then
        (r <- handle brakes v os ;; output r std_cout)
      else if iequals v2 "auto_init" then
        if (List.length v =? auto_init_force_fields)%nat then
          (r <- handle auto_init_force v os ;; output r std_cout)
        else
          (r <- handle auto_init v os ;; output r std_cout)
      else if iequals v2 "initj" then
        (r <- handle joint_move v os ;; output r std_cout)
      else
        output (join v (List.length v) "," +:+ "," +:+ str unknown_command
                +:+ "," +:+ dq +:+ "unknown command found: '" +:+ v2 +:+ "'" +:+ dq)
               std_cout
  end.

(** ** The status reader *)

(** [boost::posix_time::milliseconds timeout( 0.1 * 1000000u )]: the product,
    converted to the integer count of milliseconds the constructor takes.
    (The product of the two doubles is 100000 exactly, as it is here.) *)
Definition timeout_total_milliseconds : Z := Qfloor (0.1 * 1000000).

(** [select.wait( timeout )] followed by [select.read().ready( fd )]. *)
Definition select_ready `{ArmTypes} (a : arrival) : bool :=
  match ready_after a with
  | Some d => d <=? timeout_total_milliseconds
  | None => false
  end.

(** [while( iss.has_data() ) { arm_status = *( iss.read() ); }] over the
    frames the stream holds. *)
Fixpoint drain `{ArmTypes} (buffered : list status_t) (w : World) : World :=
  match buffered with
  | [] => w
  | f :: rest => drain rest (set_arm_status f w)
  end.

Definition no_status : string :=
  "no status received within timeout of " +:+ pretty timeout_total_milliseconds
  +:+ "ms".

Definition read_status `{ArmHeaders} : M World bool :=
  fun w =>
    match status_stream w with
    | [] => (Raise (comma_exception no_status), w)
    | a :: later =>
        if select_ready a then
          match frames a with
          | [] => (Undefined null_dereference, set_status_stream later w)
          | f :: rest =>
              let w' := drain rest (set_arm_status f (set_status_stream later w)) in
              if negb (status_length (arm_status w') =? fixed_status_size) then
                (Raise (comma_exception "status data alignment check failed"), w')
              else (Val true, w')
          end
        else (Raise (comma_exception no_status), w)
    end.

(** ** The scope guard *)

Definition stop_command : string := "stopj([0.1,0.1,0.1,0.1,0.1,0.1])" +:+ nl.
Definition power_off : string := "power off" +:+ nl.

(** [~stop_on_exit()] *)
Definition stop_on_exit_destructor `{ArmTypes} (os_ : ostream) : M World unit :=
  put os_ [os_put stop_command; os_put power_off; os_flush].

(** ** The home position monitor *)

(** The files that exist are a list of paths, each once.
    [std::ofstream( homefile, std::ios::out | std::ios::trunc )] makes the
    file exist; [fs::remove( path )] makes it not exist, and does nothing
    when it does not. *)
Definition create (p : string) (existing : list string) : list string :=
  if in_dec string_dec p existing then existing else p :: existing.

Definition fs_remove (p : string) (existing : list string) : list string :=
  List.remove string_dec p existing.

(** The body of [for( i=0; i<=arm::joints_num; ++i )] for the indices of
    [idx] in turn; the result is [is_home] after the loop. *)
Fixpoint is_home_loop `{ArmHeaders} (idx : list nat) (angles home : list plane_angle_t)
    (epsilon : plane_angle_t) : res bool :=
  match idx with
  | [] => Val true
  | i :: rest =>
      match angles !! i, home !! i with
      | Some a, Some h =>
          if negb (equal a h epsilon) then Val false
          else is_home_loop rest angles home epsilon
      | _, _ => Undefined out_of_bounds
      end
  end.

Definition home_position_check `{ArmHeaders} (status : status_t) (homefile : string)
  : M World unit :=
  fun w =>
    let path_ := match path w with Some p => p | None => homefile end in
    let epsilon := degree 2 in
    let home :=
      match home_position w with
      | [] => [degree (config_home_position w 0%nat);
               degree (config_home_position w 1%nat);
               degree (config_home_position w 2%nat);
               degree (config_home_position w 3%nat);
               degree (config_home_position w 4%nat);
               degree (config_home_position w 5%nat)]
      | cached => cached
      end in
    let w := set_statics home (Some path_) w in
    if is_running status then
      match is_home_loop (seq 0 (S joints_num)) (joint_angles status) home epsilon with
      | Val true => (Val tt, set_files (create homefile (files w)) w)
      | Val false => (Val tt, set_files (fs_remove path_ (files w)) w)
      | Raise e => (Raise e, w)
      | Undefined u => (Undefined u, w)
      end
    else (Val tt, w).

(** ** The control loop *)

(** [inputs.read()] *)
Definition inputs_read `{ArmTypes} : M World unit :=
  fun w =>
    match cin w with
    | [] => (Val tt, w)
    | None :: later => (Raise unknown_exception, set_cin later w)
    | Some lines :: later => (Val tt, set_inputs (inputs w ++ lines) (set_cin later w))
    end.

(** [arm_output::serialise], with [acc = 0.5] and [vel = 0.1] of [main]. *)
Definition serialise `{ArmHeaders} (joints : ExtY_Arm_Controller_T) : string :=
  "movej([" +:+ ascii_put joints +:+ "],a=0.5,v=0.1)".

(** [arm_output::write_arm_status] *)
Definition write_arm_status `{ArmHeaders} : M World unit :=
  modify (fun w => set_publisher (publisher w ++ [pub_write (binary_put (Arm_Controller_Y w))]) w).

(** What the loop condition [!signaled && std::cin.good()] and
    [status_stream->good()] evaluate to in one iteration. *)
Record tick := {
  signaled : bool;
  cin_good : bool;
  status_stream_good : bool;
}.

(** One iteration of the [while] loop of [main]. *)
Definition cycle `{ArmHeaders} (t : tick) : M World unit :=
  (if negb (status_stream_good t)
   then throw (comma_exception "status connection to robot arm failed.")
   else ret tt) ;;;
  fresh <- read_status ;;
  (if fresh : bool then
     status <- gets arm_status ;;
     homefile <- gets (fun w => home_filepath (handlers w)) ;;
     home_position_check status homefile
   else ret tt) ;;;
  catch_all inputs_read (comma_exception "reading from stdcin failed.") ;;;
  queue <- gets inputs ;;
  match queue with
  | [] => ret tt
  | v :: rest => modify (set_inputs rest) ;;; process_command v robot_arm_stream
  end ;;;
  modify (fun w =>
    set_Y_DW (Arm_Controller_step (Arm_Controller_U w)
                (Arm_Controller_Y w, Arm_Controller_DW w)) w) ;;;
  flag <- gets (fun w => command_flag (Arm_Controller_Y w)) ;;
  (if 0 <? flag then
     joints <- gets Arm_Controller_Y ;;
     put robot_arm_stream [os_put (serialise joints); os_endl; os_flush] ;;;
     modify (fun w => set_U (set_motion_primitive no_action (Arm_Controller_U w)) w)
   else ret tt) ;;;
  modify (set_U zeroed) ;;;
  write_arm_status.

(** How far the loop has got when the recorded ticks end. *)
Inductive loop_state :=
| looping
| left_loop.

(** [while( !signaled && std::cin.good() ) { ... }] over the ticks given. *)
Fixpoint main_loop `{ArmHeaders} (ticks : list tick) : M World loop_state :=
  match ticks with
  | [] => ret looping
  | t :: later =>
      if negb (signaled t) && cin_good t then cycle t ;;; main_loop later
      else ret left_loop
  end.

(** The scope of [stop_on_exit on_exit( *robot_arm )]: the destructor runs
    when the scope is left, by its end or by an exception. *)
Definition stop_on_exit `{ArmTypes} (os_ : ostream) (scope : M World loop_state)
  : M World loop_state :=
  fun w =>
    match scope w with
    | (Val looping, w') => (Val looping, w')
    | (Undefined u, w') => (Undefined u, w')
    | (r, w') => (r, snd (stop_on_exit_destructor os_ w'))
    end.

(** What follows the loop in the [try] block of [main]. *)
Definition exiting `{ArmTypes} : M World unit :=
  put robot_arm_stream [os_put power_off; os_flush] ;;;
  modify (fun w => set_publisher (publisher w ++ [pub_close]) w).

(** The [try] block of [main] from the declaration of [on_exit] on. *)
Definition control_session `{ArmHeaders} (ticks : list tick) : M World loop_state :=
  stop_on_exit robot_arm_stream
    (l <- main_loop ticks ;;
     match l with
     | looping => ret looping
     | left_loop => exiting ;;; ret left_loop
     end).

(** The process after the ticks given: still in the loop, exited with a
    code, or lost to undefined behaviour. *)
Inductive process `{ArmTypes} :=
| running (w : World)
| exited (code : Z) (w : World)
| lost (u : ub) (w : World).

(** [main] from the declaration of [on_exit] on: the [try] block and its
    three [catch] clauses. *)
Definition main `{ArmHeaders} (ticks : list tick) (w : World) : process :=
  match control_session ticks w with
  | (Val looping, w') => running w'
  | (Val left_loop, w') => exited 0 w'
  | (Raise _, w') => exited 1 w'
  | (Undefined u, w') => lost u w'
  end.

(** ** The dispatch table, as a table *)

(** The operation names [process_command] compares the third token with. *)
Definition operations : list string :=
  ["move_cam"; "set_pos"; "set_home"; "power"; "brakes"; "stop"; "auto_init"; "initj"].

(** The command class a line of [size] tokens with operation token [v2] is
    parsed as. *)
Definition schema `{ArmHeaders} (v2 : string) (size : nat) : option command_class :=
  if iequals v2 "move_cam" then Some move_cam
  else if iequals v2 "set_pos" then Some set_position
  else if iequals v2 "set_home" then Some set_home
  else if iequals v2 "power" then Some power
  else if iequals v2 "brakes" then Some brakes
  else if iequals v2 "stop" then Some brakes
  else if iequals v2 "auto_init" then
    Some (if (size =? auto_init_force_fields)%nat then auto_init_force else auto_init)
  else if iequals v2 "initj" then Some joint_move
  else None.

(** What [main] writes to the arm once the loop is left by its condition,
    and what the guard writes. *)
Definition notice : list event := [os_put power_off; os_flush].
Definition teardown : list event := [os_put stop_command; os_put power_off; os_flush].

(** Whether joint [i] is within [epsilon] of its home angle. *)
Definition within `{ArmHeaders} (angles home : list plane_angle_t)
    (epsilon : plane_angle_t) (i : nat) : bool :=
  match angles !! i, home !! i with
  | Some a, Some h => equal a h epsilon
  | _, _ => false
  end.

(** The home angles [home_position_check] compares with: the cached ones, or
    the configured ones on the first call. *)
Definition home_angles `{ArmHeaders} (w : World) : list plane_angle_t :=
  match home_position w with
  | [] => map (fun i => degree (config_home_position w i)) (seq 0 6)
  | cached => cached
  end.

(** ** A bench: stand-ins for the headers, to run the daemon on *)

Definition bench_types : ArmTypes :=
  {| plane_angle_t := Q;
     command := command_class * list string;
     ExtU_Arm_Controller_T := Z * Z;
     ExtY_Arm_Controller_T := Z;
     DW_Arm_Controller_T := unit;
     handlers_t := nat |}.

(** The bench parser takes three tokens for a command; four tokens fail a
    conversion, five fail in some other way, any other count is a wrong
    number of fields. *)
Definition bench_ascii_get (C : command_class) (line : list string)
  : @parsed bench_types :=
  match List.length line with
  | 3%nat => @got bench_types (C, line)
  | 4%nat => @bad_lexical_cast bench_types
  | 5%nat => @other_fault bench_types
  | _ => @comma_error bench_types
  end.

(** The bench handler counts the commands it is given and asks the
    controller for a motion. *)
Definition bench_dispatch_to (c : command_class * list string)
  : M (@World bench_types) string :=
  fun w =>
    (Val "0,ok",
     @set_U bench_types (1, snd (@Arm_Controller_U bench_types w))
       (@Build_World bench_types (arm_status w) (Arm_Controller_U w)
          (Arm_Controller_Y w) (Arm_Controller_DW w) (S (@handlers bench_types w))
          (config_home_position w) (robot_arm w) (cout w) (publisher w)
          (status_stream w) (cin w) (inputs w) (files w) (home_position w) (path w))).

Definition bench_headers : @ArmHeaders bench_types :=
  {| ascii_get := bench_ascii_get;
     construct := fun C => (C, []);
     names := fun _ => "id,seq,name";
     serialise_command := fun c => join (snd c) (List.length (snd c)) ",";
     auto_init_force_fields := 4;
     str := fun e => match e with format_error => "3" | unknown_command => "2" end;
     dispatch_to := bench_dispatch_to;
     home_filepath := fun _ => "work/home";
     degree := fun q => q;
     equal := fun a b e => Qle_bool (Qabs (a - b)) e;
     Arm_Controller_step := fun u yd => (fst u, snd yd);
     zeroed := (0, 0);
     set_motion_primitive := fun m u => (m, snd u);
     no_action := 0;
     command_flag := fun y => y;
     ascii_put := fun _ => "0,0,0,0,0,0";
     binary_put := fun _ => "status";
     fixed_status_size := 812 |}.

Definition bench_status (len : Z) (run : bool) (angles : list Q) : @status_t bench_types :=
  @Build_status_t bench_types len run angles.

(** An arm that is not running, six degrees off home in its first joint. *)
Definition idle_status : @status_t bench_types :=
  bench_status 812 false [6; 0; 0; 0; 0; 0]%Q.

(** The same arm, running. *)
Definition away_status : @status_t bench_types :=
  bench_status 812 true [6; 0; 0; 0; 0; 0]%Q.

(** A running arm with every joint at its home angle. *)
Definition parked_status : @status_t bench_types :=
  bench_status 812 true [0; 0; 0; 0; 0; 0]%Q.

(** A frame whose length field is not the frame size. *)
Definition torn_status : @status_t bench_types :=
  bench_status 0 true [1; 2; 3; 4; 5; 6]%Q.

(** A session that has just begun: nothing written, nothing cached, the
    home marker present from an earlier run; [feed] is what the feedback
    channel will deliver and [typed] what the command source will. *)
Definition bench_world (feed : list (@arrival bench_types))
    (typed : list (option (list (list string)))) : @World bench_types :=
  @Build_World bench_types
    (bench_status 0 false []) (* arm_status *)
    (0, 0) (* Arm_Controller_U *)
    0 (* Arm_Controller_Y *)
    tt (* Arm_Controller_DW *)
    0%nat (* handlers *)
    (fun _ => 0%Q) (* config_home_position *)
    [] (* robot_arm *)
    [] (* cout *)
    [] (* publisher *)
    feed (* status_stream *)
    typed (* cin *)
    [] (* inputs *)
    ["work/home"] (* files *)
    [] (* home_position *)
    None (* path *).

(** A frame arrives [gap] milliseconds into the wait. *)
Definition after (gap : Z) (f : @status_t bench_types) : @arrival bench_types :=
  @Build_arrival bench_types (Some gap) [f].

(** One iteration on the bench: a frame comes in, [7,1,set_home] is
    dispatched, the controller asks for a motion, the motion is sent. *)
Definition busy_world : @World bench_types :=
  bench_world [after 20 away_status] [Some [["7"; "1"; "set_home"]]].

Definition go : tick := {| signaled := false; cin_good := true; status_stream_good := true |}.
Definition interrupt : tick := {| signaled := true; cin_good := true; status_stream_good := true |}.

(** The string [boost::iequals] compares: every character through
    [std::toupper]. *)
Fixpoint upper (a : string) : string :=
  match a with
  | EmptyString => EmptyString
  | String x a' => String (toupper x) (upper a')
  end.

(** What an iteration that reaches its end has done after the command, if
    any, was processed: the controller is stepped, the motion is sent when
    the flag is positive, the input block is cleared, the status is
    broadcast. *)
Definition after_command `{ArmHeaders} (w5 : World) : World :=
  let yd := Arm_Controller_step (Arm_Controller_U w5)
              (Arm_Controller_Y w5, Arm_Controller_DW w5) in
  let w6 := set_Y_DW yd w5 in
  let w7 := if 0 <? command_flag (fst yd)
            then set_robot_arm
                   (robot_arm w6 ++ [os_put (serialise (fst yd)); os_endl; os_flush]) w6
            else w6 in
  set_publisher (publisher w7 ++ [pub_write (binary_put (fst yd))]) (set_U zeroed w7).

(** ** Start-up: [main] up to the loop *)

(** An option on the command line: not there, there with a value that
    [boost::lexical_cast] cannot convert, or there with its value. *)
Inductive given (A : Type) :=
| absent
| unreadable
| present (a : A).

Arguments absent {A}.
Arguments unreadable {A}.
Arguments present {A} a.

(** The options [main] asks [comma::command_line_options] for. *)
Record command_line := {
  help : bool;
  output_config : bool;
  id : given Z;
  sleep : given Q;
  status_port : given Z;
  verbose : bool;
  config_option : given string;
  robot_arm_host : given string;
  robot_arm_port : given string;
  feedback_host : given string;
  feedback_port : given string;
  init_force_limit : given Q;
}.

(** [options.exists( name )] *)
Definition option_exists {A} (o : given A) : bool :=
  match o with
  | absent => false
  | _ => true
  end.

(** [options.value< T >( name )]: the library throws a [comma::exception]
    for an option that is not there and lets [boost::bad_lexical_cast]
    through for a value it cannot convert.  The text of the library's first
    message is not in these sources; [what] is the name of the option. *)
Definition option_value {W A} (name : string) (o : given A) : M W A :=
  match o with
  | present a => ret a
  | absent => throw (comma_exception name)
  | unreadable =>
      throw (std_exception
               "bad lexical cast: source type value could not be interpreted as target")
  end.

(** What [config.continuum] holds once a configuration is loaded. *)
Record continuum_t := {
  continuum_home_position : nat -> Q;
  work_directory : string;
}.

(** A file [load_config] may be given: one that cannot be opened, one that
    is not JSON ([read_json] throws; the exception is of a library type this
    file does not name), or one that holds a configuration. *)
Inductive config_file :=
| cannot_open
| not_json
| holds (c : continuum_t).

(** What the daemon finds around it when it starts: the files, the
    directories that exist, and whether the arm's command port, the status
    port to listen on and the arm's feedback port can be opened. *)
Record environment := {
  file : string -> config_file;
  directories : list string;
  robot_arm_connects : bool;
  status_port_binds : bool;
  feedback_connects : bool;
}.

(** What the start-up part of [main] needs beside {!ArmHeaders}: the
    controller's [Arm_Controller_initialize] and [Arm_Controller_terminate]
    (called by the constructor and the destructor of [arm_output]), the JSON
    text [write_json] gives for the configuration, the state of
    [auto_initialization] and [commands_handler] as constructed for a work
    directory, and [auto_init.set_force_limit]. *)
Class ArmStartup `{ArmHeaders} := {
  Arm_Controller_initialize :
    ExtU_Arm_Controller_T * (ExtY_Arm_Controller_T * DW_Arm_Controller_T) ->
    ExtU_Arm_Controller_T * (ExtY_Arm_Controller_T * DW_Arm_Controller_T);
  Arm_Controller_terminate :
    ExtU_Arm_Controller_T * (ExtY_Arm_Controller_T * DW_Arm_Controller_T) ->
    ExtU_Arm_Controller_T * (ExtY_Arm_Controller_T * DW_Arm_Controller_T);
  config_json : (nat -> Q) -> string;
  new_handlers : string -> handlers_t;
  set_force_limit : Q -> handlers_t -> handlers_t;
}.

Definition set_handlers `{ArmTypes} (h : handlers_t) (w : World) : World :=
  {| arm_status := arm_status w; Arm_Controller_U := Arm_Controller_U w;
     Arm_Controller_Y := Arm_Controller_Y w; Arm_Controller_DW := Arm_Controller_DW w;
     handlers := h; config_home_position := config_home_position w;
     robot_arm := robot_arm w; cout := cout w;
     publisher := publisher w; status_stream := status_stream w; cin := cin w;
     inputs := inputs w; files := files w; home_position := home_position w;
     path := path w |}.

Definition set_config_home_position `{ArmTypes} (c : nat -> Q) (w : World) : World :=
  {| arm_status := arm_status w; Arm_Controller_U := Arm_Controller_U w;
     Arm_Controller_Y := Arm_Controller_Y w; Arm_Controller_DW := Arm_Controller_DW w;
     handlers := handlers w; config_home_position := c;
     robot_arm := robot_arm w; cout := cout w;
     publisher := publisher w; status_stream := status_stream w; cin := cin w;
     inputs := inputs w; files := files w; home_position := home_position w;
     path := path w |}.

(** The controller's three blocks, put back into the state. *)
Definition set_controller `{ArmTypes}
    (c : ExtU_Arm_Controller_T * (ExtY_Arm_Controller_T * DW_Arm_Controller_T))
    (w : World) : World :=
  set_Y_DW (snd c) (set_U (fst c) w).

Definition controller `{ArmTypes} (w : World)
  : ExtU_Arm_Controller_T * (ExtY_Arm_Controller_T * DW_Arm_Controller_T) :=
  (Arm_Controller_U w, (Arm_Controller_Y w, Arm_Controller_DW w)).

(** [load_config( filepath )]: the file is opened, read as JSON and applied
    to the global [config]. *)
Definition load_config `{ArmTypes} (env : environment) (filepath : string)
  : M World continuum_t :=
  match file env filepath with
  | cannot_open => throw (comma_exception ("failed to open file: " +:+ filepath))
  | not_json => throw unknown_exception
  | holds c =>
      modify (set_config_home_position (continuum_home_position c)) ;;; ret c
  end.

(** How the [try] block of [main] is left, if it is. *)
Inductive try_end :=
| in_loop
| fell_through
| returned (code : Z).

(** The scope of [arm_output output( ... )]: the constructor calls
    [Arm_Controller_initialize], the destructor [Arm_Controller_terminate]. *)
Definition arm_output `{ArmStartup} (scope : M World try_end) : M World try_end :=
  fun w =>
    match scope (set_controller (Arm_Controller_initialize (controller w)) w) with
    | (Val in_loop, w') => (Val in_loop, w')
    | (Undefined u, w') => (Undefined u, w')
    | (r, w') => (r, set_controller (Arm_Controller_terminate (controller w')) w')
    end.

(** From the publisher to [commands_handler.reset]: what is set up between
    the declaration of [on_exit] and the loop.  The constructors of the
    publisher and of the feedback stream throw when the port cannot be
    opened. *)
Definition open_channels `{ArmStartup} (cl : command_line) (env : environment)
    (c : continuum_t) : M World unit :=
  (if status_port_binds env then ret tt else throw unknown_exception) ;;;
  (if feedback_connects env then ret tt else throw unknown_exception) ;;;
  modify (set_handlers (new_handlers (work_directory c))) ;;;
  (if option_exists (init_force_limit cl) then
     limit <- option_value "--init-force-limit,-ifl" (init_force_limit cl) ;;
     modify (fun w => set_handlers (set_force_limit limit (handlers w)) w)
   else ret tt).

(** The [try] block of [main], whole. *)
Definition try_block `{ArmStartup} (cl : command_line) (env : environment)
    (ticks : list tick) : M World try_end :=
  arm_output
    (rover_id <- option_value "--id" (id cl) ;;
     sleep_ <- (if option_exists (sleep cl) then option_value "--sleep" (sleep cl)
                else ret 0.1%Q) ;;
     listen_port <- option_value "--status-port,-sp" (status_port cl) ;;
     config_file_ <- option_value "--config" (config_option cl) ;;
     c <- load_config env config_file_ ;;
     if String.eqb (work_directory c) EmptyString then ret (returned 1)
     else if negb (existsb (String.eqb (work_directory c)) (directories env))
     then ret (returned 1)
     else
       arm_conn_host <- option_value "--robot-arm-host" (robot_arm_host cl) ;;
       arm_conn_port <- option_value "--robot-arm-port" (robot_arm_port cl) ;;
       arm_feedback_host <- option_value "--feedback-host" (feedback_host cl) ;;
       arm_feedback_port <- option_value "--feedback-port" (feedback_port cl) ;;
       if negb (robot_arm_connects env) then ret (returned 1)
       else
         l <- stop_on_exit robot_arm_stream
                (open_channels cl env c ;;;
                 l <- main_loop ticks ;;
                 match l with
                 | looping => ret looping
                 | left_loop => exiting ;;; ret left_loop
                 end) ;;
         match l with
         | looping => ret in_loop
         | left_loop => ret fell_through
         end).

(** [main], whole: [usage( 0 )] ends the process with code 0; the
    configuration is printed when asked for; then the [try] block and its
    [catch] clauses. *)
Definition daemon `{ArmStartup} (cl : command_line) (env : environment)
    (ticks : list tick) (w : World) : process :=
  if help cl then exited 0 w
  else
    let w0 := if output_config cl
              then set_cout (cout w ++ [os_put (config_json (config_home_position w))]) w
              else w in
    match try_block cl env ticks w0 with
    | (Val in_loop, w') => running w'
    | (Val fell_through, w') => exited 0 w'
    | (Val (returned code), w') => exited code w'
    | (Raise _, w') => exited 1 w'
    | (Undefined u, w') => lost u w'
    end.

(** Whether [main] gets as far as the declaration of [on_exit], and with
    which configuration: no [--help], the options [--id], [--status-port],
    [--config] and the four host and port options there and readable,
    [--sleep] readable if there, a configuration file that loads, a work
    directory that is named and exists, and an arm that accepts the
    connection. *)
Definition reaches_guard (cl : command_line) (env : environment) : option continuum_t :=
  match help cl, id cl, sleep cl, status_port cl, config_option cl with
  | false, present _, (absent | present _), present _, present f =>
      match file env f with
      | holds c =>
          match robot_arm_host cl, robot_arm_port cl, feedback_host cl, feedback_port cl with
          | present _, present _, present _, present _ =>
              if negb (String.eqb (work_directory c) EmptyString)
                 && existsb (String.eqb (work_directory c)) (directories env)
                 && robot_arm_connects env
              then Some c else None
          | _, _, _, _ => None
          end
      | _ => None
      end
  | _, _, _, _, _ => None
  end.

(** Whether what follows the declaration of [on_exit] gets as far as the
    loop. *)
Definition channels_open (cl : command_line) (env : environment) : bool :=
  status_port_binds env && feedback_connects env
  && match init_force_limit cl with unreadable => false | _ => true end.

(** The part of the [try] block from the declaration of [on_exit] on. *)
Definition guarded `{ArmStartup} (cl : command_line) (env : environment)
    (c : continuum_t) (ticks : list tick) : M World try_end :=
  l <- stop_on_exit robot_arm_stream
         (open_channels cl env c ;;;
          l <- main_loop ticks ;;
          match l with
          | looping => ret looping
          | left_loop => exiting ;;; ret left_loop
          end) ;;
  match l with
  | looping => ret in_loop
  | left_loop => ret fell_through
  end.

(** The state the loop starts in. *)
Definition session_start `{ArmStartup} (cl : command_line) (c : continuum_t)
    (w : World) : World :=
  let w0 := if output_config cl
            then set_cout (cout w ++ [os_put (config_json (config_home_position w))]) w
            else w in
  let w1 := set_config_home_position (continuum_home_position c)
              (set_controller (Arm_Controller_initialize (controller w0)) w0) in
  let h := new_handlers (work_directory c) in
  set_handlers (match init_force_limit cl with
                | present limit => set_force_limit limit h
                | _ => h
                end) w1.

(** The process once the destructor of [arm_output] has run. *)
Definition terminated `{ArmStartup} (p : process) : process :=
  match p with
  | exited code w => exited code (set_controller (Arm_Controller_terminate (controller w)) w)
  | p => p
  end.

(** ** The bench, for the start-up *)

Definition bench_start_up : @ArmStartup bench_types bench_headers :=
  @Build_ArmStartup bench_types bench_headers
    (fun _ => ((0, 0), (0, tt))) (* Arm_Controller_initialize *)
    (fun c => (fst c, (0, tt))) (* Arm_Controller_terminate *)
    (fun _ => "{}") (* config_json *)
    (fun _ => 0%nat) (* new_handlers *)
    (fun _ h => (h + 100)%nat) (* set_force_limit *).

(** A command line with everything the daemon asks for. *)
Definition bench_command_line : command_line :=
  {| help := false; output_config := false; id := present 7; sleep := absent;
     status_port := present 14000; verbose := false;
     config_option := present "ur5.json";
     robot_arm_host := present "arm"; robot_arm_port := present "30002";
     feedback_host := present "arm"; feedback_port := present "30003";
     init_force_limit := absent |}.

(** The same without [--id]. *)
Definition no_id_command_line : command_line :=
  {| help := false; output_config := false; id := absent; sleep := absent;
     status_port := present 14000; verbose := false;
     config_option := present "ur5.json";
     robot_arm_host := present "arm"; robot_arm_port := present "30002";
     feedback_host := present "arm"; feedback_port := present "30003";
     init_force_limit := absent |}.

Definition bench_continuum : continuum_t :=
  {| continuum_home_position := fun _ => 0%Q; work_directory := "work" |}.

(** One configuration file, one directory; [binds] tells whether the
    status port is free. *)
Definition bench_environment (binds : bool) : environment :=
  {| file := fun f => if String.eqb f "ur5.json" then holds bench_continuum
                      else cannot_open;
     directories := ["work"];
     robot_arm_connects := true;
     status_port_binds := binds;
     feedback_connects := true |}.

(** Two lines in the queue when the iteration starts. *)
Definition queued_world : @World bench_types :=
  @set_inputs bench_types [["7"; "1"; "set_home"]; ["7"; "2"; "bogus_op"]]
    (bench_world [after 20 away_status] [Some [["7"; "3"; "stop"]]]).

(** [inputs.read()] will throw. *)
Definition broken_cin_world : @World bench_types :=
  bench_world [after 20 away_status] [None].

Definition feedback_lost : tick :=
  {| signaled := false; cin_good := true; status_stream_good := false |}.

(** * Properties *)

(** ** The computations *)

Lemma bind_val {W A B} (m : M W A) (k : A -> M W B) w b w' :
  bind m k w = (Val b, w') ->
  exists a w1, m w = (Val a, w1) /\ k a w1 = (Val b, w').
Proof.
  unfold bind. destruct (m w) as [[a | e | u] w1]; intros E; try discriminate.
  eauto.
Qed.

Lemma bind_eq_val {W A B} (m : M W A) (k : A -> M W B) w a w1 :
  m w = (Val a, w1) -> bind m k w = k a w1.
Proof. unfold bind. now intros ->. Qed.

Lemma bind_eq_raise {W A B} (m : M W A) (k : A -> M W B) w e w1 :
  m w = (Raise e, w1) -> bind m k w = (Raise e, w1).
Proof. unfold bind. now intros ->. Qed.

Ltac bind_inv H :=
  let a := fresh "a" in
  let w1 := fresh "w" in
  let E := fresh "E" in
  apply bind_val in H; destruct H as (a & w1 & E & H).

Section Dispatch.

Context `{ArmHeaders}.

(** ** Command dispatch *)

Lemma process_command_schema (v : list string) os v2 C :
  v !! 2%nat = Some v2 ->
  schema v2 (List.length v) = Some C ->
  process_command v os = (r <- handle C v os ;; output r std_cout).
Proof.
  intros E S. unfold process_command, schema in *. rewrite E.
  repeat match type of S with
         | (if iequals v2 ?n then _ else _) = _ =>
             destruct (iequals v2 n); [injection S as <-; try reflexivity |]
         end; try discriminate.
  now destruct (_ =? _)%nat.
Qed.

Lemma schema_None v2 size :
  schema v2 size = None <-> Forall (fun n => iequals v2 n = false) operations.
Proof.
  unfold schema, operations. split.
  - intros S.
    repeat match type of S with
           | (if iequals v2 ?n then _ else _) = _ =>
               destruct (iequals v2 n) eqn:?; [discriminate |]
           end.
    repeat constructor; assumption.
  - intros F. repeat (apply Forall_cons_1 in F; destruct F as [-> F]). reflexivity.
Qed.

Lemma process_command_unknown (v : list string) os (w : World) v2 :
  v !! 2%nat = Some v2 ->
  Forall (fun n => iequals v2 n = false) operations ->
  process_command v os w
  = (Val tt,
     set_cout (cout w ++ [os_put (join v (List.length v) "," +:+ "," +:+ str unknown_command
                                  +:+ "," +:+ dq +:+ "unknown command found: '" +:+ v2
                                  +:+ "'" +:+ dq);
                          os_endl]) w).
Proof.
  intros E F. unfold process_command. rewrite E. unfold operations in F.
  repeat (apply Forall_cons_1 in F; destruct F as [-> F]). reflexivity.
Qed.

(** C9: [process_command] reads [v[2]] before anything else and without
    looking at [v.size()]: on a line of fewer than three tokens the read is
    past the end of the vector, whatever the tokens are, and nothing has been
    written or dispatched by then. *)
Theorem process_command_short_line (v : list string) (os : ostream) (w : World) :
  (List.length v < 3)%nat ->
  process_command v os w = (Undefined out_of_bounds, w).
Proof.
  intros L. unfold process_command.
  rewrite (proj2 (lookup_ge_None v 2%nat)) by lia.
  reflexivity.
Qed.

(** C6: a line whose third token is, letter case aside, none of the
    operation names gets the reply [line,unknown_command,"unknown command
    found: 'token'"]; the call returns normally, and nothing but [std::cout]
    has changed: no handler has run, the arm's stream and the controller's
    input block are as they were. *)
Theorem unknown_operation_reply (v : list string) (os : ostream) (w : World) (v2 : string) :
  v !! 2%nat = Some v2 ->
  Forall (fun n => iequals v2 n = false) operations ->
  let reply := join v (List.length v) "," +:+ "," +:+ str unknown_command +:+ ","
               +:+ dq +:+ "unknown command found: '" +:+ v2 +:+ "'" +:+ dq in
  process_command v os w = (Val tt, set_cout (cout w ++ [os_put reply; os_endl]) w)
  /\ robot_arm (snd (process_command v os w)) = robot_arm w
  /\ handlers (snd (process_command v os w)) = handlers w
  /\ Arm_Controller_U (snd (process_command v os w)) = Arm_Controller_U w
  /\ publisher (snd (process_command v os w)) = publisher w.
Proof.
  intros E F reply.
  assert (P : process_command v os w
              = (Val tt, set_cout (cout w ++ [os_put reply; os_endl]) w)).
  { now apply process_command_unknown. }
  rewrite P. repeat split.
Qed.

(** C7: on a line that names an operation, a parser that throws
    [boost::bad_lexical_cast] or [comma::exception] costs nothing but a reply
    on [std::cout]: [<line,format_error,"command format error, ... fields:
    names - types: types";], the handler not run; a parser that throws
    anything else makes [process_command] throw a [comma::exception], with
    nothing written. *)
Theorem format_error_reply (v : list string) (os : ostream) (w : World) (v2 : string)
    (C : command_class) :
  v !! 2%nat = Some v2 ->
  schema v2 (List.length v) = Some C ->
  let reply what :=
    "<" +:+ join v (List.length v) "," +:+ "," +:+ str format_error +:+ "," +:+ dq
    +:+ what +:+ names (construct C) +:+ " - types: "
    +:+ serialise_command (construct C) +:+ dq +:+ ";" in
  match ascii_get C v with
  | bad_lexical_cast =>
      process_command v os w
      = (Val tt,
         set_cout (cout w ++ [os_put (reply "command format error, wrong field type/s, fields: ");
                              os_endl]) w)
  | comma_error =>
      process_command v os w
      = (Val tt,
         set_cout (cout w ++ [os_put (reply "command format error, wrong field/s or field type/s, fields: ");
                              os_endl]) w)
  | other_fault =>
      process_command v os w
      = (Raise (comma_exception
                  ("unknown error is parsing: " +:+ join v (List.length v) ",")), w)
  | got c => True
  end.
Proof.
  intros E S reply.
  rewrite (process_command_schema v os v2 C E S).
  unfold handle, bind. destruct (ascii_get C v); first [exact I | reflexivity].
Qed.

(** C8, as the code has it: the reply is the last thing [process_command]
    does, and it goes to [std::cout].  From the state the handler left (or
    the state at the call, when none ran) only [std::cout] differs, by the
    reply and the end of line: the arm's stream and the publisher get nothing
    from [process_command] itself. *)
Theorem reply_on_cout (v : list string) (os : ostream) (w w' : World) :
  process_command v os w = (Val tt, w') ->
  exists reply w1,
    w' = set_cout (cout w1 ++ [os_put reply; os_endl]) w1
    /\ robot_arm w' = robot_arm w1
    /\ publisher w' = publisher w1
    /\ (w1 = w \/ exists c msg, dispatch_to c w = (Val msg, w1)).
Proof.
  intros P.
  destruct (v !! 2%nat) as [v2 |] eqn:E.
  2: { unfold process_command in P. rewrite E in P. discriminate. }
  destruct (schema v2 (List.length v)) as [C |] eqn:S.
  - rewrite (process_command_schema v os v2 C E S) in P.
    bind_inv P. unfold output, put in P. injection P as <-.
    exists a, w0. repeat split.
    unfold handle in E0. destruct (ascii_get C v) as [c | | |].
    + bind_inv E0. injection E0 as <- <-. right. eauto.
    + injection E0 as <- <-. now left.
    + injection E0 as <- <-. now left.
    + discriminate.
  - apply schema_None in S.
    rewrite (process_command_unknown v os w v2 E S) in P. injection P as <-.
    eexists _, w. repeat split. now left.
Qed.

End Dispatch.

Section StatusReader.

Context `{ArmHeaders}.

Lemma set_arm_status_twice (f g : status_t) (w : World) :
  set_arm_status g (set_arm_status f w) = set_arm_status g w.
Proof. reflexivity. Qed.

Lemma last_cons_default {A} (rest : list A) (f g : A) :
  List.last (g :: rest) f = List.last rest g.
Proof.
  revert f g. induction rest as [| a rest IH]; intros f g; [reflexivity |].
  change (List.last (g :: a :: rest) f) with (List.last (a :: rest) f).
  now rewrite !IH.
Qed.

Lemma drain_last (rest : list status_t) (f : status_t) (w : World) :
  drain rest (set_arm_status f w) = set_arm_status (List.last rest f) w.
Proof.
  revert f. induction rest as [| g rest IH]; intros f; [reflexivity |].
  cbn [drain]. now rewrite set_arm_status_twice, IH, last_cons_default.
Qed.

Lemma read_status_ready (w : World) a later f rest :
  status_stream w = a :: later ->
  select_ready a = true ->
  frames a = f :: rest ->
  read_status w
  = (if status_length (List.last rest f) =? fixed_status_size then Val true
     else Raise (comma_exception "status data alignment check failed"),
     set_arm_status (List.last rest f) (set_status_stream later w)).
Proof.
  intros S R F. unfold read_status. rewrite S, R, F, drain_last.
  cbn [arm_status set_arm_status]. now destruct (_ =? _).
Qed.

(** The descriptor is readable when the wait ends if data comes within
    100000 milliseconds. *)
Lemma select_ready_within (a : arrival) :
  select_ready a = true <-> exists d, ready_after a = Some d /\ d <= 100000.
Proof.
  unfold select_ready. destruct (ready_after a) as [d |].
  - change timeout_total_milliseconds with 100000. rewrite Z.leb_le.
    split; [eauto | now intros (? & [= <-] & ?)].
  - split; [discriminate | now intros (? & ? & _)].
Qed.

(** Nothing readable when the wait ends: [read_status] throws, and has
    touched nothing. *)
Lemma read_status_timeout (w : World) :
  match status_stream w with
  | [] => True
  | a :: _ => select_ready a = false
  end ->
  read_status w = (Raise (comma_exception no_status), w).
Proof.
  unfold read_status. destruct (status_stream w) as [| a later]; [reflexivity |].
  now intros ->.
Qed.

(** C4, as the code has it: each frame is stored in [arm_status] as it is
    decoded, the last one of the backlog stays there, and the length field of
    that one is then compared with [arm::fixed_status::size].  The call
    returns [true] when they are equal and throws when they are not, with the
    frame in [arm_status] either way. *)
Theorem read_status_checks_last (w : World) (a : arrival) (later : list arrival)
    (f : status_t) (rest : list status_t) :
  status_stream w = a :: later ->
  select_ready a = true ->
  frames a = f :: rest ->
  let w' := set_arm_status (List.last rest f) (set_status_stream later w) in
  arm_status w' = List.last rest f
  /\ (status_length (List.last rest f) = fixed_status_size ->
      read_status w = (Val true, w'))
  /\ (status_length (List.last rest f) <> fixed_status_size ->
      read_status w
      = (Raise (comma_exception "status data alignment check failed"), w')).
Proof.
  intros S R F w'. split; [reflexivity |].
  rewrite (read_status_ready w a later f rest S R F). fold w'.
  split; intros L.
  - now rewrite (proj2 (Z.eqb_eq _ _) L).
  - now rewrite (proj2 (Z.eqb_neq _ _) L).
Qed.

(** C5: when [read_status] returns, the feedback descriptor was readable and
    the stream held a backlog [f :: rest]; the state differs from the one at
    the call in two places only: the stream is past the whole backlog, and
    [arm_status] is the last frame of it. *)
Theorem read_status_keeps_freshest (w w' : World) (b : bool) :
  read_status w = (Val b, w') ->
  exists a later f rest,
    status_stream w = a :: later
    /\ select_ready a = true
    /\ frames a = f :: rest
    /\ b = true
    /\ arm_status w' = List.last rest f
    /\ status_stream w' = later
    /\ w' = set_arm_status (List.last rest f) (set_status_stream later w).
Proof.
  intros R. unfold read_status in R.
  destruct (status_stream w) as [| a later] eqn:S; [discriminate |].
  destruct (select_ready a) eqn:Ra; [| discriminate].
  destruct (frames a) as [| f rest] eqn:F; [discriminate |].
  rewrite drain_last in R. cbn [arm_status set_arm_status] in R.
  destruct (_ =? _); cbn in R; [| discriminate].
  injection R as <- <-.
  exists a, later, f, rest. repeat split; assumption.
Qed.

End StatusReader.

Section HomeMonitor.

Context `{ArmHeaders}.

Lemma is_home_loop_app (idx1 idx2 : list nat) (angles home : list plane_angle_t) epsilon :
  Forall (fun i => (i < List.length angles)%nat /\ (i < List.length home)%nat) idx1 ->
  is_home_loop (idx1 ++ idx2) angles home epsilon
  = if forallb (within angles home epsilon) idx1
    then is_home_loop idx2 angles home epsilon
    else Val false.
Proof.
  induction 1 as [| i idx1 [La Lh] _ IH]; [reflexivity |].
  cbn [app is_home_loop forallb]. unfold within at 1.
  destruct (lookup_lt_is_Some_2 angles i La) as [a ->].
  destruct (lookup_lt_is_Some_2 home i Lh) as [h ->].
  destruct (equal a h epsilon); [exact IH | reflexivity].
Qed.

(** The loop runs over the indices 0 to [joints_num], that one included:
    with six home angles it ends in a read past the end of [home_position]
    unless one of the six joints stops it before. *)
Lemma is_home_loop_six (angles home : list plane_angle_t) epsilon :
  (6 <= List.length angles)%nat ->
  List.length home = 6%nat ->
  is_home_loop (seq 0 (S joints_num)) angles home epsilon
  = if forallb (within angles home epsilon) (seq 0 6)
    then Undefined out_of_bounds
    else Val false.
Proof.
  intros La Lh.
  change (seq 0 (S joints_num)) with (seq 0 6 ++ [6%nat])%list.
  rewrite is_home_loop_app.
  - destruct (forallb _ _); [| reflexivity].
    cbn [is_home_loop].
    rewrite (proj2 (lookup_ge_None home 6%nat)) by lia.
    now destruct (angles !! 6%nat).
  - apply Forall_forall. intros i I. apply elem_of_seq in I. lia.
Qed.

Lemma home_position_check_idle (status : status_t) homefile (w : World) :
  is_running status = false ->
  fst (home_position_check status homefile w) = Val tt
  /\ files (snd (home_position_check status homefile w)) = files w.
Proof. intros R. unfold home_position_check. now rewrite R. Qed.

Lemma home_position_check_running (status : status_t) homefile (w : World) :
  is_running status = true ->
  (6 <= List.length (joint_angles status))%nat ->
  List.length (home_angles w) = 6%nat ->
  home_position_check status homefile w
  = let path_ := match path w with Some p => p | None => homefile end in
    let w1 := set_statics (home_angles w) (Some path_) w in
    if forallb (within (joint_angles status) (home_angles w) (degree 2)) (seq 0 6)
    then (Undefined out_of_bounds, w1)
    else (Val tt, set_files (fs_remove path_ (files w)) w1).
Proof.
  intros R La Lh. unfold home_position_check. rewrite R. cbv zeta.
  assert (E : match home_position w with
              | [] => [degree (config_home_position w 0%nat);
                       degree (config_home_position w 1%nat);
                       degree (config_home_position w 2%nat);
                       degree (config_home_position w 3%nat);
                       degree (config_home_position w 4%nat);
                       degree (config_home_position w 5%nat)]
              | a :: l => a :: l
              end = home_angles w).
  { unfold home_angles. now destruct (home_position w). }
  rewrite E, (is_home_loop_six _ _ _ La Lh).
  now destruct (forallb _ _).
Qed.

(** C3, as the code has it: a status that does not report running leaves
    the files as they are, a marker written earlier included; a running
    status with one of its six joints further than two degrees from home
    removes the marker, and where there is none nothing changes. *)
Theorem home_marker_by_design (status : status_t) (homefile : string) (w : World) :
  path w = None \/ path w = Some homefile ->
  (6 <= List.length (joint_angles status))%nat ->
  List.length (home_angles w) = 6%nat ->
  let w' := snd (home_position_check status homefile w) in
  (is_running status = false ->
   fst (home_position_check status homefile w) = Val tt /\ files w' = files w)
  /\ (is_running status = true ->
      forallb (within (joint_angles status) (home_angles w) (degree 2)) (seq 0 6) = false ->
      fst (home_position_check status homefile w) = Val tt
      /\ ~ In homefile (files w')
      /\ files w' = fs_remove homefile (files w)
      /\ (~ In homefile (files w) -> files w' = files w)).
Proof.
  intros P La Lh w'. split.
  - apply home_position_check_idle.
  - intros R O. subst w'.
    rewrite (home_position_check_running status homefile w R La Lh). cbv zeta.
    rewrite O.
    assert (E : match path w with Some p => p | None => homefile end = homefile).
    { destruct P as [-> | ->]; reflexivity. }
    rewrite E. cbn [fst snd files set_files set_statics].
    split; [reflexivity |]. split; [apply remove_In |].
    split; [reflexivity |]. intros N. now apply notin_remove.
Qed.

(** X1: the other half of the same loop.  A running arm with all six joints
    within two degrees of home takes [home_position_check] past the end of
    [home_position] before any file is written. *)
Lemma home_position_check_parked (status : status_t) (homefile : string) (w : World) :
  is_running status = true ->
  (6 <= List.length (joint_angles status))%nat ->
  List.length (home_angles w) = 6%nat ->
  forallb (within (joint_angles status) (home_angles w) (degree 2)) (seq 0 6) = true ->
  fst (home_position_check status homefile w) = Undefined out_of_bounds
  /\ files (snd (home_position_check status homefile w)) = files w.
Proof.
  intros R La Lh I.
  rewrite (home_position_check_running status homefile w R La Lh). cbv zeta.
  now rewrite I.
Qed.

End HomeMonitor.

Section ControlLoop.

Context `{ArmHeaders}.

(** C10: an iteration of the loop that reaches its end leaves the
    controller's input block as [memset] made it, whatever the command flag
    was: what a handler put there has been seen by one
    [Arm_Controller_step] and is gone before the next. *)
Theorem inputs_reset_every_cycle (t : tick) (w w' : World) :
  cycle t w = (Val tt, w') ->
  Arm_Controller_U w' = zeroed.
Proof.
  intros C. unfold cycle in C.
  repeat bind_inv C.
  unfold write_arm_status, modify in C. injection C as <-.
  match goal with
  | Z : modify (set_U zeroed) _ = _ |- _ => unfold modify in Z; injection Z as <- <-
  end.
  reflexivity.
Qed.

(** The loop is left by its condition when a signal has been flagged or
    [std::cin] is no longer good, and by an exception when an iteration
    throws. *)
Lemma main_loop_signaled (t : tick) later (w : World) :
  signaled t = true -> main_loop (t :: later) w = (Val left_loop, w).
Proof. intros S. cbn [main_loop]. now rewrite S. Qed.

Lemma main_loop_cin_closed (t : tick) later (w : World) :
  cin_good t = false -> main_loop (t :: later) w = (Val left_loop, w).
Proof. intros S. cbn [main_loop]. rewrite S. now destruct (signaled t). Qed.

Lemma main_loop_raise (t : tick) later (w w1 : World) e :
  signaled t = false -> cin_good t = true ->
  cycle t w = (Raise e, w1) ->
  main_loop (t :: later) w = (Raise e, w1).
Proof.
  intros S G C. cbn [main_loop]. rewrite S, G. cbn [negb andb].
  now apply bind_eq_raise.
Qed.

Lemma cycle_timeout (t : tick) (w : World) :
  status_stream_good t = true ->
  match status_stream w with
  | [] => True
  | a :: _ => select_ready a = false
  end ->
  cycle t w = (Raise (comma_exception no_status), w).
Proof.
  intros G N. unfold cycle. rewrite G. cbn [negb].
  rewrite (bind_eq_val (ret tt) _ w tt w eq_refl).
  apply bind_eq_raise. now apply read_status_timeout.
Qed.

(** X2: a wait that ends with nothing to read ends the session: the exception
    leaves the loop, the guard writes its three events, the exit code is 1. *)
Theorem status_timeout_is_fatal (t : tick) (later : list tick) (w : World) :
  signaled t = false -> cin_good t = true -> status_stream_good t = true ->
  match status_stream w with
  | [] => True
  | a :: _ => select_ready a = false
  end ->
  main (t :: later) w
  = exited 1 (set_robot_arm
                (robot_arm w ++ [os_put stop_command; os_put power_off; os_flush]) w).
Proof.
  intros S G F N.
  unfold main, control_session, stop_on_exit.
  rewrite (bind_eq_raise _ _ w (comma_exception no_status) w); [reflexivity |].
  apply main_loop_raise; try assumption. now apply cycle_timeout.
Qed.

(** [main] by the way the loop ends. *)
Lemma main_by_loop (ticks : list tick) (w : World) :
  main ticks w
  = match main_loop ticks w with
    | (Val looping, w1) => running w1
    | (Val left_loop, w1) =>
        let w2 := set_publisher (publisher w1 ++ [pub_close])
                    (set_robot_arm (robot_arm w1 ++ notice) w1) in
        exited 0 (set_robot_arm (robot_arm w2 ++ teardown) w2)
    | (Raise e, w1) => exited 1 (set_robot_arm (robot_arm w1 ++ teardown) w1)
    | (Undefined u, w1) => lost u w1
    end.
Proof.
  unfold main, control_session, stop_on_exit, bind.
  destruct (main_loop ticks w) as [[[|] | e | u] w1]; reflexivity.
Qed.

(** C1: however the session ends, by the loop condition (a signal, the end
    of the command input) with code 0 or by an exception thrown in the loop
    with code 1, the last things on the arm's stream are the stop command,
    power off and a flush, in this order; between the end of the loop and
    the end of the process the stop command is written once. *)
Theorem stop_on_every_exit (ticks : list tick) (w w' : World) (code : Z) :
  main ticks w = exited code w' ->
  exists early,
    (code = 0 /\ fst (main_loop ticks w) = Val left_loop /\ early = notice
     \/ code = 1 /\ (exists e, fst (main_loop ticks w) = Raise e) /\ early = [])
    /\ robot_arm w'
       = (robot_arm (snd (main_loop ticks w)) ++ early
          ++ [os_put stop_command; os_put power_off; os_flush])%list
    /\ count_occ event_eq_dec
         (early ++ [os_put stop_command; os_put power_off; os_flush])
         (os_put stop_command) = 1%nat.
Proof.
  rewrite main_by_loop.
  destruct (main_loop ticks w) as [[[|] | e | u] w1]; intros E; try discriminate.
  - injection E as <- <-. exists notice. split; [left; repeat split |].
    split; [| reflexivity].
    cbn [robot_arm set_robot_arm set_publisher fst snd]. now rewrite <- app_assoc.
  - injection E as <- <-. exists []. split; [right; repeat split; eauto |].
    split; reflexivity.
Qed.

End ControlLoop.

(** * The daemon on the bench *)

Section Bench.

#[local] Existing Instance bench_types.
#[local] Existing Instance bench_headers.

Example timeout_value : timeout_total_milliseconds = 100000.
Proof. reflexivity. Qed.

Example iequals_folds_case : iequals "Set_Home" "set_home" = true.
Proof. reflexivity. Qed.

Example iequals_needs_same_length : iequals "set_home " "set_home" = false.
Proof. reflexivity. Qed.

(** C2 on the bench: the wait is 100000 ms, not 100 ms.  A frame that
    comes 150 ms into the wait is read as if nothing had happened; the
    timeout is thrown only when nothing has come for more than 100 seconds,
    and its message says so. *)
Theorem status_wait_150ms_gap :
  timeout_total_milliseconds = 100000
  /\ fst (read_status (bench_world [after 150 away_status] [])) = Val true
  /\ fst (read_status (bench_world [after 100000 away_status] [])) = Val true
  /\ fst (read_status (bench_world [after 100001 away_status] []))
     = Raise (comma_exception "no status received within timeout of 100000ms").
Proof. repeat split. Qed.

Lemma process_command_short_line_witness :
  (List.length ["7"; "1"] < 3)%nat
  /\ process_command ["7"; "1"] robot_arm_stream (bench_world [] [])
     = (Undefined out_of_bounds, bench_world [] []).
Proof.
  assert (L : (List.length ["7"; "1"] < 3)%nat) by (cbn; lia).
  split; [exact L |].
  exact (process_command_short_line ["7"; "1"] robot_arm_stream (bench_world [] []) L).
Defined.

Lemma unknown_operation_reply_witness :
  let v := ["7"; "2"; "bogus_op"] in
  let w := bench_world [] [] in
  v !! 2%nat = Some "bogus_op"
  /\ Forall (fun n => iequals "bogus_op" n = false) operations
  /\ process_command v robot_arm_stream w
     = (Val tt,
        set_cout [os_put ("7,2,bogus_op,2," +:+ dq +:+ "unknown command found: 'bogus_op'" +:+ dq);
                  os_endl] w)
  /\ robot_arm (snd (process_command v robot_arm_stream w)) = [].
Proof.
  intros v w.
  assert (F : Forall (fun n => iequals "bogus_op" n = false) operations)
    by (repeat constructor).
  split; [reflexivity |]. split; [exact F |].
  destruct (unknown_operation_reply v robot_arm_stream w "bogus_op" eq_refl F)
    as (P & A & _).
  split; [exact P | exact A].
Defined.

Lemma format_error_reply_witness :
  let v := ["7"; "1"; "set_home"; "x"] in
  let w := bench_world [] [] in
  v !! 2%nat = Some "set_home"
  /\ schema "set_home" (List.length v) = Some set_home
  /\ process_command v robot_arm_stream w
     = (Val tt,
        set_cout [os_put ("<7,1,set_home,x,3," +:+ dq
                          +:+ "command format error, wrong field type/s, fields: id,seq,name - types: "
                          +:+ dq +:+ ";");
                  os_endl] w).
Proof.
  intros v w. split; [reflexivity |]. split; [reflexivity |].
  exact (format_error_reply v robot_arm_stream w "set_home" set_home eq_refl eq_refl).
Defined.

Lemma reply_on_cout_witness :
  let v := ["7"; "1"; "set_home"] in
  let w := bench_world [] [] in
  let w' := snd (process_command v robot_arm_stream w) in
  process_command v robot_arm_stream w = (Val tt, w')
  /\ exists reply w1,
      w' = set_cout (cout w1 ++ [os_put reply; os_endl]) w1
      /\ robot_arm w' = robot_arm w1
      /\ publisher w' = publisher w1
      /\ (w1 = w \/ exists c msg, dispatch_to c w = (Val msg, w1)).
Proof.
  intros v w w'.
  assert (P : process_command v robot_arm_stream w = (Val tt, w')) by reflexivity.
  split; [exact P |].
  exact (reply_on_cout v robot_arm_stream w w' P).
Defined.

(** C8 at a concrete line: the reply to [7,2,bogus_op] is on [std::cout],
    and the arm's stream has got nothing. *)
Lemma reply_not_on_robot_arm :
  let r := process_command ["7"; "2"; "bogus_op"] robot_arm_stream (bench_world [] []) in
  fst r = Val tt
  /\ robot_arm (snd r) = []
  /\ cout (snd r)
     = [os_put ("7,2,bogus_op,2," +:+ dq +:+ "unknown command found: 'bogus_op'" +:+ dq);
        os_endl].
Proof. repeat split. Qed.

(** The same for a command that is dispatched. *)
Example reply_of_set_home :
  let r := process_command ["7"; "1"; "set_home"] robot_arm_stream (bench_world [] []) in
  fst r = Val tt
  /\ robot_arm (snd r) = []
  /\ cout (snd r) = [os_put "<7,1,set_home,0,ok;"; os_endl]
  /\ handlers (snd r) = 1%nat.
Proof. repeat split. Qed.

(** C4 at concrete frames.  A frame with a wrong length field is in
    [arm_status] when [read_status] throws; and when a second, good frame is
    buffered behind it, the wrong one is decoded and dropped with no error at
    all. *)
Lemma torn_frame_in_arm_status :
  let w := bench_world [after 20 torn_status] [] in
  let burst := @Build_arrival bench_types (Some 20) [torn_status; away_status] in
  fst (read_status w) = Raise (comma_exception "status data alignment check failed")
  /\ arm_status (snd (read_status w)) = torn_status
  /\ arm_status w <> torn_status
  /\ status_length torn_status <> fixed_status_size
  /\ read_status (bench_world [burst] [])
     = (Val true, set_arm_status away_status (bench_world [] [])).
Proof. repeat split; discriminate. Qed.

Lemma read_status_checks_last_witness :
  let burst := @Build_arrival bench_types (Some 20) [torn_status; away_status] in
  let w := bench_world [burst; after 20 torn_status] [] in
  status_stream w = burst :: [after 20 torn_status]
  /\ select_ready burst = true
  /\ frames burst = torn_status :: [away_status]
  /\ arm_status (set_arm_status away_status (set_status_stream [after 20 torn_status] w))
     = away_status
  /\ read_status w
     = (Val true, set_arm_status away_status (set_status_stream [after 20 torn_status] w)).
Proof.
  intros burst w.
  destruct (read_status_checks_last w burst [after 20 torn_status] torn_status
              [away_status] eq_refl eq_refl eq_refl) as (A & G & _).
  split; [reflexivity |]. split; [reflexivity |]. split; [reflexivity |].
  split; [exact A | exact (G eq_refl)].
Defined.

Lemma read_status_keeps_freshest_witness :
  let burst := @Build_arrival bench_types (Some 20) [idle_status; parked_status; away_status] in
  let w := bench_world [burst] [] in
  read_status w = (Val true, snd (read_status w))
  /\ exists a later f rest,
      status_stream w = a :: later
      /\ select_ready a = true
      /\ frames a = f :: rest
      /\ true = true
      /\ arm_status (snd (read_status w)) = List.last rest f
      /\ status_stream (snd (read_status w)) = later
      /\ snd (read_status w) = set_arm_status (List.last rest f) (set_status_stream later w).
Proof.
  intros burst w.
  assert (R : read_status w = (Val true, snd (read_status w))) by reflexivity.
  split; [exact R |].
  exact (read_status_keeps_freshest w (snd (read_status w)) true R).
Defined.

Example freshest_of_three :
  let burst := @Build_arrival bench_types (Some 20) [idle_status; parked_status; away_status] in
  arm_status (snd (read_status (bench_world [burst] []))) = away_status.
Proof. reflexivity. Qed.

(** C3 at a concrete status: the marker of an earlier run is there, the arm
    reports a mode that is not running and is six degrees from home, and
    after the check the marker is still there. *)
Lemma home_marker_outlives_idle_status :
  let w := bench_world [] [] in
  let r := home_position_check idle_status "work/home" w in
  fst r = Val tt
  /\ In "work/home" (files (snd r))
  /\ is_running idle_status = false
  /\ forallb (within (joint_angles idle_status) (home_angles w) (degree 2)) (seq 0 6) = false.
Proof.
  intros w r. split; [reflexivity |]. split; [| split; reflexivity].
  now left.
Qed.

Lemma home_marker_by_design_witness :
  let w := bench_world [] [] in
  let w' := snd (home_position_check away_status "work/home" w) in
  (path w = None \/ path w = Some "work/home")
  /\ (6 <= List.length (joint_angles away_status))%nat
  /\ List.length (home_angles w) = 6%nat
  /\ is_running away_status = true
  /\ forallb (within (joint_angles away_status) (home_angles w) (degree 2)) (seq 0 6) = false
  /\ fst (home_position_check away_status "work/home" w) = Val tt
  /\ ~ In "work/home" (files w')
  /\ files w' = [].
Proof.
  intros w w'.
  assert (P : path w = None \/ path w = Some "work/home") by (left; reflexivity).
  assert (L : (6 <= List.length (joint_angles away_status))%nat) by (cbn; lia).
  destruct (home_marker_by_design away_status "work/home" w P L eq_refl) as [_ D].
  destruct (D eq_refl eq_refl) as (V & N & F & _).
  repeat (split; [first [assumption | reflexivity] |]). reflexivity.
Defined.

Lemma home_position_check_parked_witness :
  let w := bench_world [] [] in
  is_running parked_status = true
  /\ (6 <= List.length (joint_angles parked_status))%nat
  /\ List.length (home_angles w) = 6%nat
  /\ forallb (within (joint_angles parked_status) (home_angles w) (degree 2)) (seq 0 6)
     = true
  /\ fst (home_position_check parked_status "work/home" w) = Undefined out_of_bounds
  /\ files (snd (home_position_check parked_status "work/home" w)) = files w.
Proof.
  intros w.
  assert (L : (6 <= List.length (joint_angles parked_status))%nat) by (cbn; lia).
  assert (I : forallb (within (joint_angles parked_status) (home_angles w) (degree 2))
                (seq 0 6) = true) by (lazy; reflexivity).
  destruct (home_position_check_parked parked_status "work/home" w eq_refl L eq_refl I)
    as [U F].
  repeat (split; [first [assumption | reflexivity] |]). exact F.
Defined.

(** The parked arm on the bench: the seventh turn of the loop. *)
Example parked_arm_out_of_bounds :
  fst (home_position_check parked_status "work/home" (bench_world [] []))
  = Undefined out_of_bounds.
Proof. reflexivity. Qed.

Lemma inputs_reset_every_cycle_witness :
  cycle go busy_world = (Val tt, snd (cycle go busy_world))
  /\ Arm_Controller_U (snd (cycle go busy_world)) = zeroed.
Proof.
  assert (C : cycle go busy_world = (Val tt, snd (cycle go busy_world)))
    by (lazy; reflexivity).
  split; [exact C |].
  exact (inputs_reset_every_cycle go busy_world _ C).
Defined.

(** The iteration in full: the reply, the motion, the status, and the
    input block as [memset] left it. *)
Example busy_cycle :
  let w' := snd (cycle go busy_world) in
  cout w' = [os_put "<7,1,set_home,0,ok;"; os_endl]
  /\ robot_arm w' = [os_put "movej([0,0,0,0,0,0],a=0.5,v=0.1)"; os_endl; os_flush]
  /\ publisher w' = [pub_write "status"]
  /\ Arm_Controller_U w' = (0, 0)
  /\ files w' = [].
Proof. lazy. repeat split. Qed.

(** The session ended by a signal: one iteration, then the flag is seen. *)
Lemma stop_on_every_exit_witness :
  let w' := set_robot_arm
              [os_put "movej([0,0,0,0,0,0],a=0.5,v=0.1)"; os_endl; os_flush;
               os_put power_off; os_flush;
               os_put stop_command; os_put power_off; os_flush]
              (set_publisher [pub_write "status"; pub_close]
                 (snd (cycle go busy_world))) in
  main [go; interrupt] busy_world = exited 0 w'
  /\ exists early,
      (0 = 0 /\ fst (main_loop [go; interrupt] busy_world) = Val left_loop /\ early = notice
       \/ 0 = 1 /\ (exists e, fst (main_loop [go; interrupt] busy_world) = Raise e)
          /\ early = [])
      /\ robot_arm w'
         = (robot_arm (snd (main_loop [go; interrupt] busy_world)) ++ early
            ++ [os_put stop_command; os_put power_off; os_flush])%list
      /\ count_occ event_eq_dec
           (early ++ [os_put stop_command; os_put power_off; os_flush])
           (os_put stop_command) = 1%nat.
Proof.
  intros w'.
  assert (E : main [go; interrupt] busy_world = exited 0 w') by (lazy; reflexivity).
  split; [exact E |].
  exact (stop_on_every_exit [go; interrupt] busy_world w' 0 E).
Defined.

(** The session ended by the status timeout: the second wait meets silence,
    [read_status] throws, and the arm gets the stop command and power off,
    once. *)
Example session_ended_by_timeout :
  exists w',
    main [go; go; go] busy_world = exited 1 w'
    /\ robot_arm w'
       = [os_put "movej([0,0,0,0,0,0],a=0.5,v=0.1)"; os_endl; os_flush;
          os_put stop_command; os_put power_off; os_flush]
    /\ publisher w' = [pub_write "status"].
Proof. eexists. lazy. repeat split. Qed.

Lemma status_timeout_is_fatal_witness :
  let w := bench_world [after 100001 away_status] [] in
  signaled go = false /\ cin_good go = true /\ status_stream_good go = true
  /\ select_ready (after 100001 away_status) = false
  /\ main [go] w
     = exited 1 (set_robot_arm
                   (robot_arm w ++ [os_put stop_command; os_put power_off; os_flush]) w).
Proof.
  intros w. repeat (split; [reflexivity |]).
  exact (status_timeout_is_fatal go [] w eq_refl eq_refl eq_refl eq_refl).
Defined.

(** The session ended by a parser that throws something unforeseen: no
    reply, exit code 1, and the guard has run. *)
Example session_ended_by_parser_fault :
  exists w',
    main [go; go]
         (bench_world [after 20 away_status] [Some [["7"; "1"; "set_home"; "a"; "b"]]])
    = exited 1 w'
    /\ cout w' = []
    /\ robot_arm w' = [os_put stop_command; os_put power_off; os_flush].
Proof. eexists. lazy. repeat split. Qed.

(** A line of two tokens in the queue: the session is lost in
    [process_command], and the guard has not run. *)
Example session_lost_to_short_line :
  exists w',
    main [go; go] (bench_world [after 20 away_status] [Some [["7"; "1"]]])
    = lost out_of_bounds w'
    /\ robot_arm w' = [].
Proof. eexists. lazy. repeat split. Qed.

(** The session ended by the end of the command input. *)
Example session_ended_by_cin :
  exists w',
    main [{| signaled := false; cin_good := false; status_stream_good := true |}]
         busy_world = exited 0 w'
    /\ robot_arm w' = [os_put power_off; os_flush;
                       os_put stop_command; os_put power_off; os_flush].
Proof. eexists. lazy. repeat split. Qed.

(** A session whose loop has not ended has written no stop command. *)
Example session_still_running :
  exists w',
    main [go] busy_world = running w'
    /\ robot_arm w' = [os_put "movej([0,0,0,0,0,0],a=0.5,v=0.1)"; os_endl; os_flush].
Proof. eexists. lazy. repeat split. Qed.

End Bench.

(** * More of the dispatcher *)

Lemma iequals_upper (a b : string) : iequals a b = String.eqb (upper a) (upper b).
Proof.
  revert b. induction a as [| x a IH]; intros [| y b]; try reflexivity.
  cbn [iequals upper String.eqb]. rewrite IH.
  now destruct (Ascii.eqb (toupper x) (toupper y)).
Qed.

Lemma iequals_same_upper (a b : string) : iequals a b = true <-> upper a = upper b.
Proof. rewrite iequals_upper. apply String.eqb_eq. Qed.

Lemma iequals_congruent (a b n : string) :
  iequals a b = true -> iequals a n = iequals b n.
Proof.
  intros E. apply iequals_same_upper in E. now rewrite !iequals_upper, E.
Qed.

Section DispatchMore.

Context `{ArmHeaders}.

Lemma schema_congruent (a b : string) (size : nat) :
  iequals a b = true -> schema a size = schema b size.
Proof.
  intros E. unfold schema. now rewrite !(iequals_congruent a b _ E).
Qed.

(** X3: a line whose parser returns a command is handed to the handler, and
    the reply [<command,message;] goes to [std::cout] after the handler has
    run, on top of whatever the handler did; when the handler throws,
    [process_command] throws the same and no reply is written. *)
Theorem dispatched_reply (v : list string) (os : ostream) (w : World) (v2 : string)
    (C : command_class) (c : command) :
  v !! 2%nat = Some v2 ->
  schema v2 (List.length v) = Some C ->
  ascii_get C v = got c ->
  match dispatch_to c w with
  | (Val msg, w1) =>
      process_command v os w
      = (Val tt,
         set_cout (cout w1 ++ [os_put ("<" +:+ serialise_command c +:+ "," +:+ msg +:+ ";");
                               os_endl]) w1)
  | (Raise e, w1) => process_command v os w = (Raise e, w1)
  | (Undefined u, w1) => process_command v os w = (Undefined u, w1)
  end.
Proof.
  intros E S G.
  rewrite (process_command_schema v os v2 C E S).
  unfold handle, bind. rewrite G.
  now destruct (dispatch_to c w) as [[msg | e | u] w1].
Qed.

(** X4: the operation token counts up to letter case only.  Two lines of
    the same number of tokens whose third tokens differ in case alone are
    both parsed as the same command class, or both answered as unknown
    commands. *)
Theorem dispatch_up_to_case (v v' : list string) (os : ostream) (a b : string) :
  v !! 2%nat = Some a ->
  v' !! 2%nat = Some b ->
  List.length v = List.length v' ->
  iequals a b = true ->
  match schema a (List.length v) with
  | Some C =>
      process_command v os = (r <- handle C v os ;; output r std_cout)
      /\ process_command v' os = (r <- handle C v' os ;; output r std_cout)
  | None =>
      Forall (fun n => iequals a n = false) operations
      /\ Forall (fun n => iequals b n = false) operations
  end.
Proof.
  intros Ea Eb L E.
  pose proof (schema_congruent a b (List.length v) E) as S.
  destruct (schema a (List.length v)) as [C |] eqn:Sa.
  - split; [now apply (process_command_schema v os a) |].
    apply (process_command_schema v' os b); [assumption |]. now rewrite <- L.
  - split; [now apply (schema_None a (List.length v)) |].
    now apply (schema_None b (List.length v)).
Qed.

(** X5: [auto_init], in any letter case, is parsed as the command with a
    force limit when the line has exactly [arm::auto_init_force::fields]
    tokens, and as the plain command for every other number of tokens. *)
Theorem auto_init_by_field_count (v : list string) (os : ostream) (v2 : string) :
  v !! 2%nat = Some v2 ->
  iequals v2 "auto_init" = true ->
  process_command v os
  = (r <- handle (if (List.length v =? auto_init_force_fields)%nat
                  then auto_init_force else auto_init) v os ;;
     output r std_cout).
Proof.
  intros E I. apply (process_command_schema v os v2); [assumption |].
  now rewrite (schema_congruent v2 "auto_init" _ I).
Qed.

(** X6: [stop] is another name of [brakes]: in any letter case both are
    parsed as [arm::brakes]. *)
Theorem stop_is_brakes (v : list string) (os : ostream) (v2 : string) :
  v !! 2%nat = Some v2 ->
  iequals v2 "stop" = true \/ iequals v2 "brakes" = true ->
  process_command v os = (r <- handle brakes v os ;; output r std_cout).
Proof.
  intros E [I | I]; apply (process_command_schema v os v2); try assumption.
  - now rewrite (schema_congruent v2 "stop" _ I).
  - now rewrite (schema_congruent v2 "brakes" _ I).
Qed.

End DispatchMore.

(** * More of the home position monitor *)

Section HomeMonitorMore.

Context `{ArmHeaders}.

Lemma home_angles_unfold (w : World) :
  match home_position w with
  | [] => [degree (config_home_position w 0%nat);
           degree (config_home_position w 1%nat);
           degree (config_home_position w 2%nat);
           degree (config_home_position w 3%nat);
           degree (config_home_position w 4%nat);
           degree (config_home_position w 5%nat)]
  | a :: l => a :: l
  end = home_angles w.
Proof. unfold home_angles. now destruct (home_position w). Qed.

(** X7: [home_position_check] changes nothing but the files and its two
    statics.  After a call [home_position] holds the home angles the call
    compared with and is not empty, so that the configuration is not read
    again, and [path] holds the file name of the first call. *)
Theorem home_position_check_frame (status : status_t) (homefile : string) (w : World) :
  let w' := snd (home_position_check status homefile w) in
  w' = set_files (files w')
         (set_statics (home_angles w)
            (Some match path w with Some p => p | None => homefile end) w)
  /\ home_position w' <> []
  /\ home_angles w' = home_angles w.
Proof.
  unfold home_position_check. cbv zeta. rewrite home_angles_unfold.
  assert (N : home_angles w <> []).
  { unfold home_angles. now destruct (home_position w). }
  destruct (is_running status);
    [destruct (is_home_loop _ _ _ _) as [[|] | e | u] |];
    cbn [snd]; (split; [reflexivity |]); (split; [exact N |]);
    unfold home_angles at 1; cbn [home_position set_files set_statics];
    now destruct (home_angles w).
Qed.

Lemma is_home_loop_true (idx : list nat) (angles home : list plane_angle_t) epsilon :
  is_home_loop idx angles home epsilon = Val true ->
  Forall (fun i => is_Some (home !! i)) idx.
Proof.
  induction idx as [| i idx IH]; intros E; [constructor |].
  cbn [is_home_loop] in E.
  destruct (angles !! i) as [a |]; [| discriminate].
  destruct (home !! i) as [h |] eqn:Eh; [| discriminate].
  destruct (equal a h epsilon); [| discriminate].
  constructor; [now rewrite Eh | now apply IH].
Qed.

(** X8: with six home angles, a call of [home_position_check] that comes
    back without having read past the end of a vector has created no file:
    every file that exists after it existed before it.  The branch that
    creates the marker lies behind the read of [home_position[6]]. *)
Theorem home_marker_never_created (status : status_t) (homefile : string) (w w' : World) :
  List.length (home_angles w) = 6%nat ->
  home_position_check status homefile w = (Val tt, w') ->
  forall p, In p (files w') -> In p (files w).
Proof.
  intros L. unfold home_position_check. cbv zeta. rewrite home_angles_unfold.
  destruct (is_running status).
  - destruct (is_home_loop _ _ _ _) as [[|] | e | u] eqn:E; try discriminate.
    + apply is_home_loop_true in E.
      apply Forall_forall with (x := 6%nat) in E;
        [| apply elem_of_seq; unfold joints_num; lia].
      apply lookup_lt_is_Some_1 in E. lia.
    + intros [= <-] p I. cbn [files set_files set_statics] in I.
      now apply in_remove in I.
  - now intros [= <-] p I.
Qed.

End HomeMonitorMore.

(** * More of the control loop *)

Section ControlLoopMore.

Context `{ArmHeaders}.

Lemma read_status_val (w w1 : World) (b : bool) :
  read_status w = (Val b, w1) ->
  b = true
  /\ exists s later, w1 = set_arm_status s (set_status_stream later w).
Proof.
  unfold read_status.
  destruct (status_stream w) as [| a later]; [discriminate |].
  destruct (select_ready a); [| discriminate].
  destruct (frames a) as [| f rest]; [discriminate |].
  rewrite drain_last. cbn [arm_status set_arm_status].
  destruct (_ =? _); cbn; [| discriminate].
  intros [= <- <-]. eauto.
Qed.

Lemma home_position_check_changes (status : status_t) (homefile : string) (w : World) :
  exists fs h p,
    snd (home_position_check status homefile w) = set_files fs (set_statics h p w).
Proof.
  unfold home_position_check. cbv zeta.
  destruct (is_running status);
    [destruct (is_home_loop _ _ _ _) as [[|] | e | u] |];
    cbn [snd]; eexists _, _, _; try reflexivity;
    match goal with |- ?x = _ => exact (eq_refl : x = set_files (files x) x) end.
Qed.

Lemma cycle_val (t : tick) (w w' : World) :
  cycle t w = (Val tt, w') ->
  status_stream_good t = true
  /\ exists s later fs h p w3 w5,
      let w2 := set_files fs (set_statics h p
                  (set_arm_status s (set_status_stream later w))) in
      catch_all inputs_read (comma_exception "reading from stdcin failed.") w2
      = (Val tt, w3)
      /\ match inputs w3 with
         | [] => w5 = w3
         | v :: rest =>
             process_command v robot_arm_stream (set_inputs rest w3) = (Val tt, w5)
         end
      /\ w' = after_command w5.
Proof.
  intros C. unfold cycle in C.
  apply bind_val in C. destruct C as ([] & w0 & E0 & C).
  destruct (status_stream_good t); [| discriminate].
  injection E0 as <-. split; [reflexivity |].
  apply bind_val in C. destruct C as (b & w1 & E1 & C).
  apply read_status_val in E1 as (-> & s & later & ->).
  apply bind_val in C. destruct C as ([] & w2 & E2 & C).
  unfold bind, gets in E2. cbn in E2.
  match type of E2 with
  | home_position_check ?st ?hf ?w1 = _ =>
      destruct (home_position_check_changes st hf w1) as (fs & h & p & Hc);
      rewrite E2 in Hc; cbn [snd] in Hc
  end.
  apply bind_val in C. destruct C as ([] & w3 & E3 & C).
  apply bind_val in C. destruct C as (q & w4 & E4 & C).
  unfold gets in E4. injection E4 as <- <-.
  apply bind_val in C. destruct C as ([] & w5 & E5 & C).
  exists s, later, fs, h, p, w3, w5. cbv zeta. rewrite <- Hc.
  split; [exact E3 |].
  split.
  - destruct (inputs w3) as [| v rest]; [now injection E5 as <- | exact E5].
  - unfold after_command. cbv zeta.
    apply bind_val in C. destruct C as ([] & w6 & E6 & C).
    unfold modify in E6. injection E6 as <-.
    apply bind_val in C. destruct C as (flag & w7 & E7 & C).
    unfold gets in E7. injection E7 as <- <-.
    cbn [Arm_Controller_Y set_Y_DW] in C.
    apply bind_val in C. destruct C as ([] & w8 & E8 & C).
    apply bind_val in C. destruct C as ([] & w9 & E9 & C).
    unfold modify in E9. injection E9 as <-.
    unfold write_arm_status, modify in C. injection C as <-.
    destruct (0 <? _).
    + unfold bind, gets, put, modify in E8. injection E8 as <-. reflexivity.
    + injection E8 as <-. reflexivity.
Qed.

Lemma inputs_read_val (w w3 : World) :
  catch_all inputs_read (comma_exception "reading from stdcin failed.") w = (Val tt, w3) ->
  exists lines, inputs w3 = (inputs w ++ lines)%list
    /\ (w3 = w /\ lines = []
        \/ exists later, cin w = Some lines :: later
             /\ w3 = set_inputs (inputs w ++ lines) (set_cin later w)).
Proof.
  unfold catch_all, inputs_read.
  destruct (cin w) as [| [lines |] later]; [| | discriminate].
  - intros [= <-]. exists []. rewrite app_nil_r. split; [reflexivity | now left].
  - intros [= <-]. exists lines. split; [reflexivity |]. right. eauto.
Qed.

(** X9: an iteration with nothing in the queue and nothing to read steps
    the controller on the input block as it stands, sends the motion to the
    arm when the command flag is positive and nothing when it is zero or
    negative, broadcasts one status, and writes nothing to [std::cout]. *)
Theorem idle_cycle (t : tick) (w w' : World) :
  inputs w = [] ->
  (cin w = [] \/ exists later, cin w = Some [] :: later) ->
  cycle t w = (Val tt, w') ->
  let yd := Arm_Controller_step (Arm_Controller_U w)
              (Arm_Controller_Y w, Arm_Controller_DW w) in
  Arm_Controller_Y w' = fst yd
  /\ Arm_Controller_DW w' = snd yd
  /\ robot_arm w'
     = (robot_arm w ++ if 0 <? command_flag (fst yd)
                       then [os_put (serialise (fst yd)); os_endl; os_flush]
                       else [])%list
  /\ publisher w' = (publisher w ++ [pub_write (binary_put (fst yd))])%list
  /\ cout w' = cout w
  /\ handlers w' = handlers w
  /\ inputs w' = [].
Proof.
  intros Q R C.
  apply cycle_val in C as (_ & s & later & fs & h & p & w3 & w5 & E3 & E5 & ->).
  cbv zeta in E3.
  apply inputs_read_val in E3 as (lines & I & E3).
  cbn [inputs set_files set_statics set_arm_status set_status_stream] in I.
  assert (L : lines = []).
  { destruct E3 as [[_ L] | (later' & Ec & _)]; [exact L |].
    cbn [cin set_files set_statics set_arm_status set_status_stream] in Ec.
    destruct R as [R | (later'' & R)]; rewrite R in Ec; congruence. }
  subst lines. rewrite Q in I. cbn in I. rewrite I in E5. subst w5.
  unfold after_command. cbv zeta.
  destruct E3 as [[-> _] | (later' & _ & ->)];
    destruct (0 <? _); cbn; rewrite ?app_nil_r; repeat split; exact Q.
Qed.

(** X10: the queue is served oldest first, one line an iteration.  When the
    queue is [v :: rest] at the start of an iteration that reaches its end,
    the iteration has processed [v] and no other line; [rest] and the lines
    read in this iteration were still queued, in this order, when [v] was
    processed. *)
Theorem oldest_command_first (t : tick) (w w' : World) (v : list string)
    (rest : list (list string)) :
  inputs w = v :: rest ->
  cycle t w = (Val tt, w') ->
  exists w3 lines w5,
    (lines = [] \/ exists unread, cin w = Some lines :: unread)
    /\ inputs w3 = (v :: rest ++ lines)%list
    /\ process_command v robot_arm_stream (set_inputs (rest ++ lines) w3) = (Val tt, w5)
    /\ w' = after_command w5.
Proof.
  intros Q C.
  apply cycle_val in C as (_ & s & later & fs & h & p & w3 & w5 & E3 & E5 & ->).
  cbv zeta in E3.
  apply inputs_read_val in E3 as (lines & I & E3).
  cbn [inputs set_files set_statics set_arm_status set_status_stream] in I.
  rewrite Q in I. cbn [app] in I. rewrite I in E5.
  exists w3, lines, w5. repeat split; try assumption.
  destruct E3 as [[_ L] | (unread & Ec & _)]; [now left | right].
  now exists unread.
Qed.

(** X11: every iteration that reaches its end has broadcast the output
    block the controller computed in it: that block, encoded, is the last
    thing the publisher has got. *)
Theorem status_broadcast_every_cycle (t : tick) (w w' : World) :
  cycle t w = (Val tt, w') ->
  exists earlier,
    publisher w' = (earlier ++ [pub_write (binary_put (Arm_Controller_Y w'))])%list.
Proof.
  intros C.
  apply cycle_val in C as (_ & s & later & fs & h & p & w3 & w5 & _ & _ & ->).
  unfold after_command. cbv zeta. eexists.
  destruct (0 <? _); reflexivity.
Qed.

(** X12: between two iterations the controller's input block is all zero.
    Whatever the ticks, when the loop has not thrown, either no iteration has
    run and the state is untouched, or the input block is as [memset] left
    it. *)
Theorem loop_keeps_inputs_zeroed (ticks : list tick) (w w' : World) (l : loop_state) :
  main_loop ticks w = (Val l, w') ->
  w' = w \/ Arm_Controller_U w' = zeroed.
Proof.
  revert w. induction ticks as [| t later IH]; intros w E.
  - injection E as _ <-. now left.
  - cbn [main_loop] in E. destruct (negb (signaled t) && cin_good t).
    + apply bind_val in E. destruct E as ([] & w1 & C & E).
      destruct (IH w1 E) as [-> | Z]; [| now right].
      right. apply cycle_val in C as (_ & _ & _ & _ & _ & _ & _ & w5 & _ & _ & ->).
      unfold after_command. cbv zeta. reflexivity.
    + injection E as _ <-. now left.
Qed.

(** X13: a feedback stream that is no longer good ends the session before
    anything is read: the state is as it was, and the arm gets the guard's
    stop command and power off; the exit code is 1. *)
Theorem feedback_lost_is_fatal (t : tick) (later : list tick) (w : World) :
  signaled t = false -> cin_good t = true -> status_stream_good t = false ->
  main (t :: later) w
  = exited 1 (set_robot_arm
                (robot_arm w ++ [os_put stop_command; os_put power_off; os_flush]) w).
Proof.
  intros S G F.
  unfold main, control_session, stop_on_exit.
  rewrite (bind_eq_raise _ _ w
             (comma_exception "status connection to robot arm failed.") w);
    [reflexivity |].
  apply main_loop_raise; try assumption.
  unfold cycle. rewrite F. reflexivity.
Qed.

(** X14: the loop condition is looked at before anything else.  With a
    signal flagged, or [std::cin] no longer good, no further iteration runs,
    whatever the ticks after: no status is read and no command processed;
    the arm gets power off and a flush from [main], then the guard's stop
    command, power off and flush; the publisher is closed and the exit code
    is 0. *)
Theorem loop_left_at_the_top (t : tick) (later : list tick) (w : World) :
  signaled t = true \/ cin_good t = false ->
  main (t :: later) w
  = exited 0
      (set_robot_arm
         (robot_arm w ++ [os_put power_off; os_flush;
                          os_put stop_command; os_put power_off; os_flush])
         (set_publisher (publisher w ++ [pub_close]) w)).
Proof.
  intros L. rewrite main_by_loop.
  assert (E : main_loop (t :: later) w = (Val left_loop, w)).
  { destruct L; [now apply main_loop_signaled | now apply main_loop_cin_closed]. }
  rewrite E. cbv zeta. cbn [robot_arm set_robot_arm set_publisher].
  unfold notice, teardown. rewrite <- app_assoc. reflexivity.
Qed.

(** X19: the publisher is closed by [main] when the loop has ended by its
    condition, and only then: a session ended by an exception leaves the
    publisher as the loop left it. *)
Theorem publisher_closed_on_normal_exit (ticks : list tick) (w w' : World) (code : Z) :
  main ticks w = exited code w' ->
  publisher w'
  = (publisher (snd (main_loop ticks w)) ++ if code =? 0 then [pub_close] else [])%list.
Proof.
  rewrite main_by_loop.
  destruct (main_loop ticks w) as [[[|] | e | u] w1]; intros E; try discriminate;
    injection E as <- <-; cbn; now rewrite ?app_nil_r.
Qed.

(** X18: when [inputs.read()] throws, whatever it throws, the iteration
    throws [reading from stdcin failed.] and the session ends with code 1.
    The status had been read and the home position checked by then; no
    command is processed, the controller is not stepped, no status is
    broadcast, and the arm gets the guard's stop command and power off. *)
Theorem input_failure_is_fatal (t : tick) (later : list tick) (w w1 w2 : World)
    (unread : list (option (list (list string)))) :
  signaled t = false -> cin_good t = true -> status_stream_good t = true ->
  read_status w = (Val true, w1) ->
  home_position_check (arm_status w1) (home_filepath (handlers w1)) w1 = (Val tt, w2) ->
  cin w = None :: unread ->
  cycle t w = (Raise (comma_exception "reading from stdcin failed."), set_cin unread w2)
  /\ main (t :: later) w
     = exited 1 (set_robot_arm
                   (robot_arm w2 ++ [os_put stop_command; os_put power_off; os_flush])
                   (set_cin unread w2))
  /\ publisher w2 = publisher w
  /\ robot_arm w2 = robot_arm w.
Proof.
  intros S G F R1 R2 Ec.
  assert (E2 : cin w2 = None :: unread /\ publisher w2 = publisher w
               /\ robot_arm w2 = robot_arm w).
  { apply read_status_val in R1 as (_ & s & l & ->).
    destruct (home_position_check_changes (arm_status (set_arm_status s (set_status_stream l w)))
                (home_filepath (handlers (set_arm_status s (set_status_stream l w))))
                (set_arm_status s (set_status_stream l w))) as (fs & h & p & Hc).
    rewrite R2 in Hc. cbn [snd] in Hc. subst w2. cbn. now rewrite Ec. }
  destruct E2 as (E2 & Ep & Ea).
  assert (C : cycle t w
              = (Raise (comma_exception "reading from stdcin failed."), set_cin unread w2)).
  { unfold cycle. rewrite F. cbn [negb].
    rewrite (bind_eq_val (ret tt) _ w tt w eq_refl).
    rewrite (bind_eq_val read_status _ w true w1 R1).
    erewrite (bind_eq_val _ _ w1 tt w2); [| unfold bind, gets; exact R2].
    apply bind_eq_raise. unfold catch_all, inputs_read. now rewrite E2. }
  split; [exact C |]. split; [| now split].
  unfold main, control_session, stop_on_exit.
  rewrite (bind_eq_raise _ _ w (comma_exception "reading from stdcin failed.")
             (set_cin unread w2)); [reflexivity |].
  now apply main_loop_raise.
Qed.

End ControlLoopMore.

(** * Start-up *)

Section StartUp.

Context `{ArmStartup}.

Lemma option_value_present {A} (name : string) (o : given A) (w w' : World) (a : A) :
  @option_value World A name o w = (Val a, w') -> o = present a /\ w' = w.
Proof. destruct o; cbn; intros [= <- <-] || discriminate. now split. Qed.

(** [--help] ends the process at once, with code 0 and nothing done. *)
Lemma daemon_help (cl : command_line) env ticks (w : World) :
  help cl = true -> daemon cl env ticks w = exited 0 w.
Proof. intros E. unfold daemon. now rewrite E. Qed.

Ltac start_up_step :=
  cbv beta iota delta [bind option_value option_exists throw ret load_config modify
                       fst snd];
  cbn [negb andb].

Ltac start_up_done :=
  start_up_step; eexists; split; [reflexivity | repeat split].

(** X15: the guard is declared once the command channel to the arm is open,
    not before.  When [main] ends earlier ([--help], an option missing or
    unreadable, a configuration file that does not load, a work directory
    that is not named or does not exist, an arm that refuses the connection)
    the arm's stream has got nothing, no stop command either, and neither
    has the publisher; the exit code is 0 for [--help] and 1 otherwise. *)
Theorem start_up_keeps_arm_silent (cl : command_line) (env : environment)
    (ticks : list tick) (w : World) :
  reaches_guard cl env = None ->
  exists w',
    daemon cl env ticks w = exited (if help cl then 0 else 1) w'
    /\ robot_arm w' = robot_arm w
    /\ publisher w' = publisher w
    /\ handlers w' = handlers w
    /\ files w' = files w
    /\ status_stream w' = status_stream w
    /\ cin w' = cin w.
Proof.
  unfold reaches_guard, daemon, try_block, arm_output. intros R.
  destruct (help cl); [now eexists |].
  destruct (output_config cl);
    (destruct (id cl); [start_up_done | start_up_done |]);
    (destruct (sleep cl); [| start_up_done |]);
    (destruct (status_port cl); [start_up_done | start_up_done |]);
    (destruct (config_option cl) as [| | f]; [start_up_done | start_up_done |]);
    start_up_step;
    (destruct (file env f) as [| | c]; [start_up_done | start_up_done |]);
    (destruct (work_directory c =? EmptyString)%string; [start_up_done |]);
    (destruct (existsb _ (directories env)); [| start_up_done]);
    (destruct (robot_arm_host cl); [start_up_done | start_up_done |]);
    (destruct (robot_arm_port cl); [start_up_done | start_up_done |]);
    (destruct (feedback_host cl); [start_up_done | start_up_done |]);
    (destruct (feedback_port cl); [start_up_done | start_up_done |]);
    (destruct (robot_arm_connects env); [discriminate | start_up_done]).
Qed.

Lemma try_block_guarded (cl : command_line) (env : environment) (ticks : list tick)
    (c : continuum_t) (w : World) :
  reaches_guard cl env = Some c ->
  try_block cl env ticks w
  = arm_output
      (fun w1 => guarded cl env c ticks
                   (set_config_home_position (continuum_home_position c) w1)) w.
Proof.
  unfold reaches_guard, try_block, arm_output, guarded. intros R.
  destruct (help cl); [discriminate |].
  destruct (id cl); try discriminate.
  destruct (sleep cl); try discriminate;
    (destruct (status_port cl); try discriminate);
    (destruct (config_option cl) as [| | f]; try discriminate);
    (destruct (file env f) as [| | c'] eqn:F; try discriminate);
    (destruct (robot_arm_host cl); try discriminate);
    (destruct (robot_arm_port cl); try discriminate);
    (destruct (feedback_host cl); try discriminate);
    (destruct (feedback_port cl); try discriminate);
    (destruct (work_directory c' =? EmptyString)%string eqn:D; try discriminate);
    (destruct (existsb _ (directories env)) eqn:X; try discriminate);
    (destruct (robot_arm_connects env) eqn:A; try discriminate);
    injection R as <-;
    cbv beta iota delta [bind option_value option_exists throw ret load_config modify];
    rewrite F; cbv beta iota; rewrite D, X; cbn [negb]; reflexivity.
Qed.

Lemma open_channels_ok (cl : command_line) (env : environment) (c : continuum_t)
    (w : World) :
  channels_open cl env = true ->
  open_channels cl env c w
  = (Val tt,
     set_handlers (match init_force_limit cl with
                   | present limit => set_force_limit limit (new_handlers (work_directory c))
                   | _ => new_handlers (work_directory c)
                   end) w).
Proof.
  unfold channels_open, open_channels. intros O.
  destruct (status_port_binds env); [| discriminate].
  destruct (feedback_connects env); [| discriminate].
  now destruct (init_force_limit cl).
Qed.

Lemma open_channels_fail (cl : command_line) (env : environment) (c : continuum_t)
    (w : World) :
  channels_open cl env = false ->
  exists e w1,
    open_channels cl env c w = (Raise e, w1)
    /\ robot_arm w1 = robot_arm w
    /\ publisher w1 = publisher w
    /\ status_stream w1 = status_stream w
    /\ cin w1 = cin w
    /\ cout w1 = cout w.
Proof.
  unfold channels_open, open_channels. intros O.
  destruct (status_port_binds env); [| now eexists _, _].
  destruct (feedback_connects env); [| now eexists _, _].
  destruct (init_force_limit cl); try discriminate.
  now eexists _, _.
Qed.

(** X16: once the guard is declared, a start-up that fails still stops the
    arm.  When the status port cannot be bound, the feedback port cannot be
    reached or [--init-force-limit] is unreadable, no iteration of the loop
    runs, and yet the arm gets the stop command, power off and a flush; the
    exit code is 1. *)
Theorem guard_covers_late_start_up (cl : command_line) (env : environment)
    (ticks : list tick) (c : continuum_t) (w : World) :
  reaches_guard cl env = Some c ->
  channels_open cl env = false ->
  exists w',
    daemon cl env ticks w = exited 1 w'
    /\ robot_arm w'
       = (robot_arm w ++ [os_put stop_command; os_put power_off; os_flush])%list
    /\ publisher w' = publisher w
    /\ status_stream w' = status_stream w
    /\ cin w' = cin w.
Proof.
  intros R O. unfold daemon.
  assert (Hh : help cl = false).
  { unfold reaches_guard in R. now destruct (help cl). }
  rewrite Hh, (try_block_guarded cl env ticks c _ R).
  unfold arm_output, guarded.
  unfold bind at 1. unfold stop_on_exit. unfold bind at 1.
  match goal with
  | |- context [open_channels cl env c ?w1] =>
      destruct (open_channels_fail cl env c w1 O) as (e & w2 & F & Fa & Fp & Fs & Fc & _)
  end.
  rewrite F.
  eexists. split; [reflexivity |].
  cbn. rewrite Fa, Fp, Fs, Fc.
  destruct (output_config cl); repeat split.
Qed.

(** X17: a start-up that gets through is the session from the state it has
    prepared: the configuration loaded, the controller initialised, the
    handlers constructed (with the force limit if one is given), the
    configuration printed if asked for.  The process ends as the session
    does, with [Arm_Controller_terminate] called last. *)
Theorem daemon_runs_session (cl : command_line) (env : environment)
    (ticks : list tick) (c : continuum_t) (w : World) :
  reaches_guard cl env = Some c ->
  channels_open cl env = true ->
  daemon cl env ticks w = terminated (main ticks (session_start cl c w)).
Proof.
  intros R O. unfold daemon.
  assert (Hh : help cl = false).
  { unfold reaches_guard in R. now destruct (help cl). }
  rewrite Hh, (try_block_guarded cl env ticks c _ R).
  unfold arm_output, guarded, main, control_session, session_start. cbv zeta.
  unfold bind at 1. unfold stop_on_exit at 1. unfold bind at 1.
  rewrite (open_channels_ok cl env c _ O).
  unfold stop_on_exit, bind.
  match goal with
  | |- context [main_loop ticks ?w1] =>
      change w1 with
        (set_handlers
           match init_force_limit cl with
           | present limit => set_force_limit limit (new_handlers (work_directory c))
           | _ => new_handlers (work_directory c)
           end
           (set_config_home_position (continuum_home_position c)
              (set_controller
                 (Arm_Controller_initialize
                    (controller
                       (if output_config cl
                        then set_cout
                               (cout w ++ [os_put (config_json (config_home_position w))]) w
                        else w)))
                 (if output_config cl
                  then set_cout
                         (cout w ++ [os_put (config_json (config_home_position w))]) w
                  else w))))
  end.
  destruct (main_loop ticks _) as [[[|] | e | u] w1]; reflexivity.
Qed.

End StartUp.

(** * More of the daemon on the bench *)

Section BenchMore.

#[local] Existing Instance bench_types.
#[local] Existing Instance bench_headers.
#[local] Existing Instance bench_start_up.

Lemma dispatched_reply_witness :
  let v := ["7"; "1"; "set_home"] in
  let w := bench_world [] [] in
  v !! 2%nat = Some "set_home"
  /\ schema "set_home" (List.length v) = Some set_home
  /\ ascii_get set_home v = got (set_home, v)
  /\ process_command v robot_arm_stream w
     = (Val tt,
        set_cout [os_put "<7,1,set_home,0,ok;"; os_endl]
          (snd (bench_dispatch_to (set_home, v) w))).
Proof.
  intros v w. do 3 (split; [reflexivity |]).
  exact (dispatched_reply v robot_arm_stream w "set_home" set_home (set_home, v)
           eq_refl eq_refl eq_refl).
Defined.

Lemma dispatch_up_to_case_witness :
  let v := ["7"; "1"; "SET_home"] in
  let v' := ["9"; "4"; "set_HOME"] in
  v !! 2%nat = Some "SET_home"
  /\ v' !! 2%nat = Some "set_HOME"
  /\ List.length v = List.length v'
  /\ iequals "SET_home" "set_HOME" = true
  /\ process_command v robot_arm_stream
     = (r <- handle set_home v robot_arm_stream ;; output r std_cout)
  /\ process_command v' robot_arm_stream
     = (r <- handle set_home v' robot_arm_stream ;; output r std_cout).
Proof.
  intros v v'. do 4 (split; [reflexivity |]).
  exact (dispatch_up_to_case v v' robot_arm_stream "SET_home" "set_HOME"
           eq_refl eq_refl eq_refl eq_refl).
Defined.

Lemma auto_init_by_field_count_witness :
  let v := ["7"; "1"; "Auto_Init"; "25"] in
  v !! 2%nat = Some "Auto_Init"
  /\ iequals "Auto_Init" "auto_init" = true
  /\ process_command v robot_arm_stream
     = (r <- handle auto_init_force v robot_arm_stream ;; output r std_cout).
Proof.
  intros v. do 2 (split; [reflexivity |]).
  exact (auto_init_by_field_count v robot_arm_stream "Auto_Init" eq_refl eq_refl).
Defined.

Lemma stop_is_brakes_witness :
  let v := ["7"; "1"; "STOP"] in
  v !! 2%nat = Some "STOP"
  /\ iequals "STOP" "stop" = true
  /\ process_command v robot_arm_stream
     = (r <- handle brakes v robot_arm_stream ;; output r std_cout).
Proof.
  intros v. do 2 (split; [reflexivity |]).
  exact (stop_is_brakes v robot_arm_stream "STOP" eq_refl (or_introl eq_refl)).
Defined.

Lemma home_marker_never_created_witness :
  let w := bench_world [] [] in
  let w' := snd (home_position_check away_status "work/home" w) in
  List.length (home_angles w) = 6%nat
  /\ home_position_check away_status "work/home" w = (Val tt, w')
  /\ forall p, In p (files w') -> In p (files w).
Proof.
  intros w w'.
  assert (C : home_position_check away_status "work/home" w = (Val tt, w'))
    by (lazy; reflexivity).
  split; [reflexivity |]. split; [exact C |].
  exact (home_marker_never_created away_status "work/home" w w' eq_refl C).
Defined.

Lemma idle_cycle_witness :
  let w := bench_world [after 20 away_status] [] in
  let w' := snd (cycle go w) in
  inputs w = []
  /\ cin w = []
  /\ cycle go w = (Val tt, w')
  /\ robot_arm w' = []
  /\ publisher w' = [pub_write "status"]
  /\ cout w' = [].
Proof.
  intros w w'.
  assert (C : cycle go w = (Val tt, w')) by (lazy; reflexivity).
  split; [reflexivity |]. split; [reflexivity |]. split; [exact C |].
  destruct (idle_cycle go w w' eq_refl (or_introl eq_refl) C)
    as (_ & _ & A & P & O & _).
  split; [exact A |]. split; [exact P | exact O].
Defined.

Lemma oldest_command_first_witness :
  let w' := snd (cycle go queued_world) in
  inputs queued_world = ["7"; "1"; "set_home"] :: [["7"; "2"; "bogus_op"]]
  /\ cycle go queued_world = (Val tt, w')
  /\ inputs w' = [["7"; "2"; "bogus_op"]; ["7"; "3"; "stop"]]
  /\ cout w' = [os_put "<7,1,set_home,0,ok;"; os_endl]
  /\ exists w3 lines w5,
      (lines = [] \/ exists unread, cin queued_world = Some lines :: unread)
      /\ inputs w3 = (["7"; "1"; "set_home"] :: [["7"; "2"; "bogus_op"]] ++ lines)%list
      /\ process_command ["7"; "1"; "set_home"] robot_arm_stream
           (set_inputs ([["7"; "2"; "bogus_op"]] ++ lines) w3) = (Val tt, w5)
      /\ w' = after_command w5.
Proof.
  intros w'.
  assert (C : cycle go queued_world = (Val tt, w')) by (lazy; reflexivity).
  split; [reflexivity |]. split; [exact C |].
  split; [lazy; reflexivity |]. split; [lazy; reflexivity |].
  exact (oldest_command_first go queued_world w' _ _ eq_refl C).
Defined.

Lemma status_broadcast_every_cycle_witness :
  cycle go busy_world = (Val tt, snd (cycle go busy_world))
  /\ exists earlier,
      publisher (snd (cycle go busy_world))
      = (earlier
         ++ [pub_write (binary_put (Arm_Controller_Y (snd (cycle go busy_world))))])%list.
Proof.
  assert (C : cycle go busy_world = (Val tt, snd (cycle go busy_world)))
    by (lazy; reflexivity).
  split; [exact C |].
  exact (status_broadcast_every_cycle go busy_world _ C).
Defined.

Lemma loop_keeps_inputs_zeroed_witness :
  let w' := snd (main_loop [go] busy_world) in
  main_loop [go] busy_world = (Val looping, w')
  /\ (w' = busy_world \/ Arm_Controller_U w' = zeroed).
Proof.
  intros w'.
  assert (L : main_loop [go] busy_world = (Val looping, w')) by (lazy; reflexivity).
  split; [exact L |].
  exact (loop_keeps_inputs_zeroed [go] busy_world w' looping L).
Defined.

Lemma feedback_lost_is_fatal_witness :
  signaled feedback_lost = false
  /\ cin_good feedback_lost = true
  /\ status_stream_good feedback_lost = false
  /\ main [feedback_lost; go] busy_world
     = exited 1 (set_robot_arm
                   (robot_arm busy_world
                    ++ [os_put stop_command; os_put power_off; os_flush]) busy_world).
Proof.
  do 3 (split; [reflexivity |]).
  exact (feedback_lost_is_fatal feedback_lost [go] busy_world eq_refl eq_refl eq_refl).
Defined.

Lemma loop_left_at_the_top_witness :
  (signaled interrupt = true \/ cin_good interrupt = false)
  /\ main [interrupt; go; go] busy_world
     = exited 0
         (set_robot_arm
            (robot_arm busy_world
             ++ [os_put power_off; os_flush;
                 os_put stop_command; os_put power_off; os_flush])
            (set_publisher (publisher busy_world ++ [pub_close]) busy_world)).
Proof.
  split; [left; reflexivity |].
  exact (loop_left_at_the_top interrupt [go; go] busy_world (or_introl eq_refl)).
Defined.

Lemma input_failure_is_fatal_witness :
  let w := broken_cin_world in
  let w1 := snd (read_status w) in
  let w2 := snd (home_position_check (arm_status w1) (home_filepath (handlers w1)) w1) in
  signaled go = false /\ cin_good go = true /\ status_stream_good go = true
  /\ read_status w = (Val true, w1)
  /\ home_position_check (arm_status w1) (home_filepath (handlers w1)) w1 = (Val tt, w2)
  /\ cin w = None :: []
  /\ main [go; go] w
     = exited 1 (set_robot_arm
                   (robot_arm w2 ++ [os_put stop_command; os_put power_off; os_flush])
                   (set_cin [] w2)).
Proof.
  intros w w1 w2.
  assert (R1 : read_status w = (Val true, w1)) by (lazy; reflexivity).
  assert (R2 : home_position_check (arm_status w1) (home_filepath (handlers w1)) w1
               = (Val tt, w2)) by (lazy; reflexivity).
  do 3 (split; [reflexivity |]). split; [exact R1 |]. split; [exact R2 |].
  split; [reflexivity |].
  exact (proj1 (proj2 (input_failure_is_fatal go [go] w w1 w2 [] eq_refl eq_refl eq_refl
                         R1 R2 eq_refl))).
Defined.

Lemma publisher_closed_on_normal_exit_witness :
  let w' := set_robot_arm
              [os_put "movej([0,0,0,0,0,0],a=0.5,v=0.1)"; os_endl; os_flush;
               os_put stop_command; os_put power_off; os_flush]
              (snd (cycle go busy_world)) in
  main [go; go] busy_world = exited 1 w'
  /\ publisher w'
     = (publisher (snd (main_loop [go; go] busy_world))
        ++ if 1 =? 0 then [pub_close] else [])%list.
Proof.
  intros w'.
  assert (E : main [go; go] busy_world = exited 1 w') by (lazy; reflexivity).
  split; [exact E |].
  exact (publisher_closed_on_normal_exit [go; go] busy_world w' 1 E).
Defined.

Lemma start_up_keeps_arm_silent_witness :
  reaches_guard no_id_command_line (bench_environment true) = None
  /\ exists w',
      daemon no_id_command_line (bench_environment true) [go] busy_world
      = exited (if help no_id_command_line then 0 else 1) w'
      /\ robot_arm w' = robot_arm busy_world
      /\ publisher w' = publisher busy_world
      /\ handlers w' = handlers busy_world
      /\ files w' = files busy_world
      /\ status_stream w' = status_stream busy_world
      /\ cin w' = cin busy_world.
Proof.
  split; [reflexivity |].
  exact (start_up_keeps_arm_silent no_id_command_line (bench_environment true) [go]
           busy_world eq_refl).
Defined.

Lemma guard_covers_late_start_up_witness :
  reaches_guard bench_command_line (bench_environment false) = Some bench_continuum
  /\ channels_open bench_command_line (bench_environment false) = false
  /\ exists w',
      daemon bench_command_line (bench_environment false) [go] busy_world = exited 1 w'
      /\ robot_arm w'
         = (robot_arm busy_world ++ [os_put stop_command; os_put power_off; os_flush])%list
      /\ publisher w' = publisher busy_world
      /\ status_stream w' = status_stream busy_world
      /\ cin w' = cin busy_world.
Proof.
  split; [reflexivity |]. split; [reflexivity |].
  exact (guard_covers_late_start_up bench_command_line (bench_environment false) [go]
           bench_continuum busy_world eq_refl eq_refl).
Defined.

Lemma daemon_runs_session_witness :
  reaches_guard bench_command_line (bench_environment true) = Some bench_continuum
  /\ channels_open bench_command_line (bench_environment true) = true
  /\ daemon bench_command_line (bench_environment true) [go; interrupt] busy_world
     = terminated (main [go; interrupt]
                     (session_start bench_command_line bench_continuum busy_world)).
Proof.
  split; [reflexivity |]. split; [reflexivity |].
  exact (daemon_runs_session bench_command_line (bench_environment true) [go; interrupt]
           bench_continuum busy_world eq_refl eq_refl).
Defined.

(** The daemon on the bench from start to end: one iteration, then a
    signal. *)
Example daemon_on_the_bench :
  exists w',
    daemon bench_command_line (bench_environment true) [go; interrupt] busy_world
    = exited 0 w'
    /\ cout w' = [os_put "<7,1,set_home,0,ok;"; os_endl]
    /\ robot_arm w'
       = [os_put "movej([0,0,0,0,0,0],a=0.5,v=0.1)"; os_endl; os_flush;
          os_put power_off; os_flush;
          os_put stop_command; os_put power_off; os_flush]
    /\ publisher w' = [pub_write "status"; pub_close].
Proof. eexists. lazy. repeat split. Qed.

End BenchMore.
